(** * baseplate.clients.sqlalchemy: trace-aware SQLAlchemy bindings

    A shallow embedding of [baseplate/clients/sqlalchemy.py] and the proofs
    of the properties its specification states.

    The module is glue between four collaborators that live outside of it:
    the configuration parser and the secrets store of baseplate, SQLAlchemy
    (URL parsing, engine creation, connections, sessions, pools) and the
    tracing and metrics clients.  The embedding keeps the glue as it is
    written and represents every collaborator by what the glue can observe
    of it: the values it returns and the calls it receives, recorded in
    order. *)

From Stdlib Require Import ZArith String DecimalString DecimalZ.
From stdpp Require Import gmap strings list fin_maps.

Local Open Scope string_scope.
Local Open Scope list_scope.
Local Open Scope Z_scope.

(** ** Python values *)

(** [str.endswith] and the slice [s[:-1]]. *)
Definition endswith (s suffix : string) : bool :=
  let n := String.length s in
  let m := String.length suffix in
  (m <=? n)%nat && String.eqb (substring (n - m) m s) suffix.

Definition drop_last (s : string) : string :=
  substring 0 (String.length s - 1) s.

(** The format specification [:d] applied to an [int]: the decimal digits,
    with a leading minus sign for a negative number. *)
Definition format_d (z : Z) : string :=
  NilZero.string_of_int (Z.to_int z).

(** A span of the tracing system, as [baseplate.Span] holds it.  [obj] is
    the identity of the Python object: two spans may carry equal ids (they
    are drawn at random) and still be different objects. *)
Module Span.
Record t := mk {
  obj : nat;
  trace_id : Z;
  parent_id : option Z;
  id : Z;
  name : string
}.
End Span.

(** The values that travel through keyword arguments, execution options
    and the connection's [info] dictionary. *)
Inductive PyVal :=
| VNone
| VInt (z : Z)
| VStr (s : string)
| VSpan (sp : Span.t).

(** An exception instance: its class and the text it was built with. *)
Record Exception := mkException {
  exc_class : string;
  exc_args : string
}.

Definition KeyError (key : string) : Exception := mkException "KeyError" key.
Definition AttributeError (msg : string) : Exception :=
  mkException "AttributeError" msg.
Definition AssertionError : Exception := mkException "AssertionError" "".
Definition TypeError (msg : string) : Exception := mkException "TypeError" msg.

(** [type(e)]. *)
Definition type_of (e : Exception) : string := exc_class e.

(** [sys.exc_info()]-style triples; a traceback object is opaque here. *)
Definition Traceback := nat.
Definition ExcInfo : Type := string * Exception * option Traceback.

(** ** Computations that may raise

    A computation over a state [S] either returns a value or raises; the
    state changes made before the exception was raised stay, as they do in
    Python. *)
Definition Result (A : Type) : Type := Exception + A.
Definition M (S A : Type) : Type := S -> Result A * S.

Definition ret {S A} (a : A) : M S A := fun s => (inr a, s).
Definition raise {S A} (e : Exception) : M S A := fun s => (inl e, s).
Definition bind {S A B} (m : M S A) (k : A -> M S B) : M S B :=
  fun s =>
    match m s with
    | (inr a, s') => k a s'
    | (inl e, s') => (inl e, s')
    end.
Definition lift {S A} (r : Result A) : M S A := fun s => (r, s).
Definition gets {S A} (f : S -> A) : M S A := fun s => (inr (f s), s).
Definition modify {S} (f : S -> S) : M S unit := fun s => (inr tt, f s).

Declare Scope py_scope.
Delimit Scope py_scope with py.
Notation "x <- c1 ;; c2" := (bind c1 (fun x => c2))
  (at level 100, c1 at next level, right associativity) : py_scope.
Notation "c1 ;; c2" := (bind c1 (fun _ => c2))
  (at level 100, right associativity) : py_scope.
Local Open Scope py_scope.

(** The [assert] statement. *)
Definition assert_ {S} (b : bool) : M S unit :=
  if b then ret tt else raise AssertionError.

(** [d[key]] on a dictionary. *)
Definition getitem {S V} (d : gmap string V) (key : string) : M S V :=
  match d !! key with
  | Some v => ret v
  | None => raise (KeyError key)
  end.

(** [d.setdefault(key, value)], for the dictionary it leaves behind. *)
Definition setdefault {V} (key : string) (value : V) (d : gmap string V)
  : gmap string V :=
  match d !! key with
  | Some _ => d
  | None => <[key := value]> d
  end.

(** ** The pool configurator *)

Module URL.
(** [sqlalchemy.engine.url.URL]. *)
Record t := mk {
  drivername : string;
  username : option string;
  password : option string;
  host : option string;
  port : option Z;
  database : option string;
  query : list (string * string)
}.
Definition set_username (u : t) (v : option string) : t :=
  mk (drivername u) v (password u) (host u) (port u) (database u) (query u).
Definition set_password (u : t) (v : option string) : t :=
  mk (drivername u) (username u) v (host u) (port u) (database u) (query u).
End URL.

Module CredentialSecret.
(** [baseplate.lib.secrets.CredentialSecret]. *)
Record t := mk { username : string; password : string }.
End CredentialSecret.

(** What the parser built from the three-key spec returns: [url] is a
    [config.String], the other two are [config.Optional]. *)
Record Options := mkOptions {
  url : string;
  credentials_secret : option string;
  pool_recycle : option Z
}.

(** The occupancy counters a [QueuePool] answers with. *)
Record QueuePoolState := mkQueuePool {
  size : Z;
  checkedin : Z;
  checkedout : Z;
  overflow : Z
}.

(** [engine.pool]: a [QueuePool] (or a subclass of it), or a pool of any
    other class, named by its class. *)
Inductive Pool :=
| QueuePool (q : QueuePoolState)
| OtherPool (class_name : string).

Record Engine := mkEngine {
  engine_url : URL.t;
  engine_kwargs : gmap string PyVal;
  pool : Pool;
  engine_options : gmap string PyVal
}.

(** [Engine.execution_options] called with keyword options [opt]: a
    view of the same engine (same url, same pool) whose options are the
    old ones overridden by [opt]. *)
Definition execution_options (e : Engine) (opt : gmap string PyVal) : Engine :=
  mkEngine (engine_url e) (engine_kwargs e) (pool e) (opt ∪ engine_options e).

(** A factory keeps a view of the engine it was given, with no option
    added.  Its constructor also registers [on_before_execute],
    [on_after_execute] and [on_error] as listeners of that view; the
    dispatch of these events is [execute], below. *)
Record SQLAlchemyEngineContextFactory := mkFactory {
  engine : Engine
}.

(** [SQLAlchemyEngineContextFactory.__init__], for an engine as the
    engine constructor returns it.  On an engine that is itself a view
    made by [execution_options], SQLAlchemy refuses the listeners and the
    constructor raises; that case is left out here. *)
Definition new_factory (engine : Engine) : SQLAlchemyEngineContextFactory :=
  mkFactory (execution_options engine ∅).

(** [config.RawConfig] is [Dict[str, str]]. *)
Abbreviation RawConfig := (gmap string string).

(** The calls [engine_from_config] makes outside of this module, in the
    order it makes them. *)
Inductive Call :=
| CallParse (key_path : string) (raw_config : RawConfig)
| CallMakeUrl (text : string)
| CallGetCredentials (secret_name : string)
| CallCreateEngine (u : URL.t) (kwargs : gmap string PyVal).

(** Truth value of an [Optional[str]]: [None] and the empty string are
    false. *)
Definition truthy (o : option string) : bool :=
  match o with
  | None => false
  | Some s => negb (String.eqb s "")
  end.

Section PoolConfigurator.

(** The collaborators, each as the function from its arguments to what
    it returns or raises. *)
Context {SecretsStore : Type}.
Variable parse : string -> RawConfig -> Result Options.
Variable make_url : string -> Result URL.t.
Variable get_credentials :
  SecretsStore -> string -> Result CredentialSecret.t.
Variable create_engine : URL.t -> gmap string PyVal -> Result Engine.

Definition call {A} (c : Call) (r : Result A) : M (list Call) A :=
  modify (fun log => log ++ [c]) ;; lift r.

Definition engine_from_config
    (app_config : RawConfig) (secrets : option SecretsStore)
    (prefix : string) (kwargs : gmap string PyVal)
  : M (list Call) Engine :=
  assert_ (endswith prefix ".") ;;
  options <- call (CallParse (drop_last prefix) app_config)
                  (parse (drop_last prefix) app_config) ;;
  url <- call (CallMakeUrl (url options)) (make_url (url options)) ;;
  let kwargs :=
    match pool_recycle options with
    | Some seconds => setdefault "pool_recycle" (VInt seconds) kwargs
    | None => kwargs
    end in
  url <-
    match credentials_secret options with
    | Some secret_name =>
        if truthy (Some secret_name) then
          match secrets with
          | None =>
              raise (TypeError
                "'secrets' is required if 'credentials_secret' is set")
          | Some store =>
              credentials <- call (CallGetCredentials secret_name)
                                  (get_credentials store secret_name) ;;
              let url :=
                URL.set_username url
                  (Some (CredentialSecret.username credentials)) in
              let url :=
                URL.set_password url
                  (Some (CredentialSecret.password credentials)) in
              ret url
          end
        else ret url
    | None => ret url
    end ;;
  call (CallCreateEngine url kwargs) (create_engine url kwargs).

(** [SQLAlchemySession], the parser that [configure_context] applies to
    the key path of a context attribute. *)
Record SQLAlchemySession := mkSQLAlchemySession {
  secrets : option SecretsStore;
  kwargs : gmap string PyVal
}.

Definition SQLAlchemySession_parse
    (self : SQLAlchemySession) (key_path : string) (raw_config : RawConfig)
  : M (list Call) SQLAlchemyEngineContextFactory :=
  engine <- engine_from_config raw_config (secrets self) (key_path +:+ ".")
              (kwargs self) ;;
  ret (new_factory engine).

End PoolConfigurator.

(** ** The world the hooks run in *)

(** A connection: the execution options it inherited from the handle it
    was drawn from (immutable), and its [info] dictionary (mutable). *)
Record Connection := mkConnection {
  _execution_options : gmap string PyVal;
  info : gmap string PyVal
}.

(** [sqlalchemy.orm.Session]: an object bound to an engine handle. *)
Record Session := mkSession {
  session_obj : nat;
  session_bind : Engine
}.

Record SQLAlchemySessionSpanObserver := mkObserver {
  session : Session
}.

(** The calls received by the tracing system and by sessions.  A session
    can be committed and rolled back as well as closed, so those calls are
    events too. *)
Inductive Event :=
| EvMakeChild (parent child : Span.t)
| EvSetTag (sp : Span.t) (key : string) (value : PyVal)
| EvStart (sp : Span.t)
| EvFinish (sp : Span.t) (exc_info : option ExcInfo)
| EvRegister (sp : Span.t) (observer : SQLAlchemySessionSpanObserver)
| EvSessionClose (s : Session)
| EvSessionCommit (s : Session)
| EvSessionRollback (s : Session).

(** The state around the hooks.  [conns] is the store of connection
    objects, addressed by reference; [events] is the list of calls made so
    far, oldest first.  The other four fields belong to the environment and
    are never written by this module: the counter of object identities, the
    source of span ids, the [repr] of an object, and what
    [Session.close()] raises (if anything) given the calls made so far. *)
Record World := mkWorld {
  next_obj : nat;
  span_ids : nat -> Z;
  obj_repr : nat -> string;
  close_outcome : Session -> list Event -> option Exception;
  conns : nat -> Connection;
  events : list Event
}.

Definition emit (ev : Event) : M World unit :=
  modify (fun w =>
    mkWorld (next_obj w) (span_ids w) (obj_repr w) (close_outcome w)
            (conns w) (events w ++ [ev])).

Definition fresh_obj : M World nat :=
  fun w =>
    (inr (next_obj w),
     mkWorld (S (next_obj w)) (span_ids w) (obj_repr w) (close_outcome w)
             (conns w) (events w)).

(** [conn.info[key] = value] on the connection behind reference [conn]. *)
Definition setitem_info (conn : nat) (key : string) (value : PyVal)
  : M World unit :=
  modify (fun w =>
    mkWorld (next_obj w) (span_ids w) (obj_repr w) (close_outcome w)
            (fun r =>
               if Nat.eqb r conn
               then mkConnection (_execution_options (conns w r))
                                 (<[key := value]> (info (conns w r)))
               else conns w r)
            (events w)).

(** *** The tracing system

    [baseplate.Span] is defined outside of this module, which consumes it
    through five calls.  Each call is recorded as an event; none of them
    raises. *)

(** Modelled from the spec: [span.makeChild(name) -> span] of
    [baseplate.Span].  The child is a new object in the trace of its
    parent, with the parent's id as its parent id and an id of its own. *)
Definition make_child (parent : Span.t) (name : string) : M World Span.t :=
  o <- fresh_obj ;;
  child_id <- gets (fun w => span_ids w o) ;;
  let child :=
    Span.mk o (Span.trace_id parent) (Some (Span.id parent)) child_id name in
  emit (EvMakeChild parent child) ;;
  ret child.

(** Modelled from the spec: [span.setTag(key, value)] of
    [baseplate.Span]; it returns nothing. *)
Definition set_tag (sp : Span.t) (key : string) (value : PyVal)
  : M World unit := emit (EvSetTag sp key value).

(** Modelled from the spec: [span.start()] of [baseplate.Span]; it
    returns nothing. *)
Definition start (sp : Span.t) : M World unit := emit (EvStart sp).

(** Modelled from the spec: [span.finish(optionalErrorInfo)] of
    [baseplate.Span]; it returns nothing. *)
Definition finish (sp : Span.t) (exc_info : option ExcInfo) : M World unit :=
  emit (EvFinish sp exc_info).

(** Modelled from the spec: [span.register(observer)] of
    [baseplate.Span]; it returns nothing. *)
Definition register (sp : Span.t) (observer : SQLAlchemySessionSpanObserver)
  : M World unit := emit (EvRegister sp observer).

(** *** Attribute access on a value of any type *)

Definition type_name (v : PyVal) : string :=
  match v with
  | VNone => "NoneType"
  | VInt _ => "int"
  | VStr _ => "str"
  | VSpan _ => "Span"
  end.

Definition no_attribute (v : PyVal) (attr : string) : Exception :=
  AttributeError
    ("'" +:+ type_name v +:+ "' object has no attribute '" +:+ attr +:+ "'").

(** [v.make_child(name)] and [v.finish(exc_info)]: only a span has these
    methods. *)
Definition py_make_child (v : PyVal) (name : string) : M World Span.t :=
  match v with
  | VSpan sp => make_child sp name
  | _ => raise (no_attribute v "make_child")
  end.

Definition py_finish (v : PyVal) (exc_info : option ExcInfo) : M World unit :=
  match v with
  | VSpan sp => finish sp exc_info
  | _ => raise (no_attribute v "finish")
  end.

(** [str(v)], which is what the replacement field [{}] formats with; for
    an object with no text of its own it is the [repr] of the object. *)
Definition str_of (repr : nat -> string) (v : PyVal) : string :=
  match v with
  | VNone => "None"
  | VInt z => format_d z
  | VStr s => s
  | VSpan sp => repr (Span.obj sp)
  end.

Definition py_str (v : PyVal) : M World string :=
  gets (fun w => str_of (obj_repr w) v).

(** ** The query execution interceptor *)

Definition Parameters : Type := option (gmap string PyVal + list PyVal).

(** The arguments the hooks receive and never look at. *)
Definition Cursor := nat.
Definition ExecutionContext := nat.

Record ExceptionContext := mkExceptionContext {
  original_exception : Exception;
  connection : nat
}.

Definition make_object_for_context
    (self : SQLAlchemyEngineContextFactory) (name : string) (span : Span.t)
  : Engine :=
  let engine :=
    execution_options (engine self)
      (<["context_name" := VStr name]> (<["server_span" := VSpan span]> ∅)) in
  engine.

Definition on_before_execute
    (self : SQLAlchemyEngineContextFactory) (conn : nat) (cursor : Cursor)
    (statement : string) (parameters : Parameters)
    (context : option ExecutionContext) (executemany : bool)
  : M World (string * Parameters) :=
  c <- gets (fun w => conns w conn) ;;
  context_name <- getitem (_execution_options c) "context_name" ;;
  server_span <- getitem (_execution_options c) "server_span" ;;
  context_name_text <- py_str context_name ;;
  let trace_name := context_name_text +:+ "." +:+ "execute" in
  span <- py_make_child server_span trace_name ;;
  set_tag span "statement" (VStr statement) ;;
  start span ;;
  setitem_info conn "span" (VSpan span) ;;
  let annotated_statement :=
    statement +:+ " -- trace:" +:+ format_d (Span.trace_id span)
              +:+ ",span:" +:+ format_d (Span.id span) in
  ret (annotated_statement, parameters).

Definition on_after_execute
    (self : SQLAlchemyEngineContextFactory) (conn : nat) (cursor : Cursor)
    (statement : string) (parameters : Parameters)
    (context : option ExecutionContext) (executemany : bool)
  : M World unit :=
  c <- gets (fun w => conns w conn) ;;
  span <- getitem (info c) "span" ;;
  py_finish span None ;;
  setitem_info conn "span" VNone.

Definition on_error
    (self : SQLAlchemyEngineContextFactory) (context : ExceptionContext)
  : M World unit :=
  let exc_info : ExcInfo :=
    (type_of (original_exception context), original_exception context, None) in
  c <- gets (fun w => conns w (connection context)) ;;
  span <- getitem (info c) "span" ;;
  py_finish span (Some exc_info) ;;
  setitem_info (connection context) "span" VNone.

(** ** Sessions and their lifecycle observer *)

(** [Session(bind=engine)]: a new session object. *)
Definition new_session (bind : Engine) : M World Session :=
  o <- fresh_obj ;;
  ret (mkSession o bind).

(** [session.close()]: the call is made, and whether it returns or raises
    is for the session to decide. *)
Definition close (s : Session) : M World unit :=
  outcome <- gets (fun w => close_outcome w s (events w)) ;;
  emit (EvSessionClose s) ;;
  match outcome with
  | Some e => raise e
  | None => ret tt
  end.

Definition on_finish
    (self : SQLAlchemySessionSpanObserver) (exc_info : option ExcInfo)
  : M World unit :=
  close (session self).

Module SQLAlchemySessionContextFactory.

(** The session factory is the engine factory with one method
    overridden. *)
Definition make_object_for_context
    (self : SQLAlchemyEngineContextFactory) (name : string) (span : Span.t)
  : M World Session :=
  let engine := make_object_for_context self name span in
  session <- new_session engine ;;
  register span (mkObserver session) ;;
  ret session.

End SQLAlchemySessionContextFactory.

(** ** The runtime metrics reporter *)

(** A metrics batch, as the list of [gauge(name).replace(value)] calls it
    received, oldest first. *)
Definition Batch : Type := list (string * Z).

Definition gauge_replace (name : string) (value : Z) : M Batch unit :=
  modify (fun batch => batch ++ [(name, value)]).

Definition report_runtime_metrics (self : SQLAlchemyEngineContextFactory)
  : M Batch unit :=
  let pool := pool (engine self) in
  match pool with
  | OtherPool _ => ret tt
  | QueuePool q =>
      gauge_replace "pool.size" (size q) ;;
      gauge_replace "pool.open_and_available" (checkedin q) ;;
      gauge_replace "pool.in_use" (checkedout q) ;;
      gauge_replace "pool.overflow" (Z.max (overflow q) 0)
  end.

(** ** Statement attempts

    The dispatch of the three events belongs to SQLAlchemy; the
    specification states what this module relies on.  For a single
    connection the hooks fire in strict sequence per statement:
    before-execute, then the driver runs the statement, then after-execute
    if the driver returned and on-error if it raised, before control
    returns to the caller; a handler of the error event that returns
    nothing leaves the exception as it is.  An exception raised by the
    before-execute hook itself ends the attempt.

    What the caller gets when the driver raised is for SQLAlchemy to say:
    an exception that is not an error of the DBAPI is raised again as it
    is, an error of the DBAPI is raised wrapped in an exception of
    SQLAlchemy's own.  So the outcome [Raises e raised] of a statement
    names both: [e], the exception of the driver, which the error event
    carries as its original exception, and [raised], the exception that
    SQLAlchemy raises for it when no handler of the error event
    intervenes.

    [execute] is one cursor execution.  SQLAlchemy fires the error event
    for errors outside of a cursor execution too; what the hooks do then
    is read off the hooks themselves. *)
Inductive Outcome :=
| Returns
| Raises (e raised : Exception).

Record Statement := mkStatement {
  stmt_text : string;
  stmt_parameters : Parameters;
  stmt_executemany : bool;
  stmt_outcome : Outcome
}.

Definition execute
    (self : SQLAlchemyEngineContextFactory) (conn : nat) (cursor : Cursor)
    (context : option ExecutionContext) (st : Statement)
  : M World (string * Parameters) :=
  sent <- on_before_execute self conn cursor (stmt_text st)
            (stmt_parameters st) context (stmt_executemany st) ;;
  match stmt_outcome st with
  | Returns =>
      on_after_execute self conn cursor (fst sent) (snd sent) context
        (stmt_executemany st) ;;
      ret sent
  | Raises e raised =>
      on_error self (mkExceptionContext e conn) ;;
      raise raised
  end.

(** The caller of a statement sees its result or its exception, and goes on
    to the next statement either way. *)
Definition attempt {S A} (m : M S A) : M S (Result A) :=
  fun s => let (r, s') := m s in (inr r, s').

Fixpoint run
    (self : SQLAlchemyEngineContextFactory) (conn : nat) (cursor : Cursor)
    (context : option ExecutionContext) (sts : list Statement)
  : M World (list (Result (string * Parameters))) :=
  match sts with
  | [] => ret []
  | st :: sts' =>
      r <- attempt (execute self conn cursor context st) ;;
      rs <- run self conn cursor context sts' ;;
      ret (r :: rs)
  end.

(** *** Reading the list of events *)

(** The spans that are live after the events [evs], starting from the
    live spans [acc]: a span becomes live when it is started and stops
    being live when it is finished.  Spans are told apart by object
    identity. *)
Definition live_step (acc : list nat) (ev : Event) : list nat :=
  match ev with
  | EvStart sp => acc ++ [Span.obj sp]
  | EvFinish sp _ =>
      List.filter (fun o => negb (Nat.eqb o (Span.obj sp))) acc
  | _ => acc
  end.

Fixpoint live_from (acc : list nat) (evs : list Event) : list nat :=
  match evs with
  | [] => acc
  | ev :: evs' => live_from (live_step acc ev) evs'
  end.

Definition live (evs : list Event) : list nat := live_from [] evs.

Definition is_start_of (o : nat) (ev : Event) : bool :=
  match ev with
  | EvStart sp => Nat.eqb (Span.obj sp) o
  | _ => false
  end.

Definition is_finish_of (o : nat) (ev : Event) : bool :=
  match ev with
  | EvFinish sp _ => Nat.eqb (Span.obj sp) o
  | _ => false
  end.

Definition count_if (p : Event -> bool) (evs : list Event) : nat :=
  length (List.filter p evs).

(** The objects of the spans created by [make_child] in [evs]. *)
Fixpoint created (evs : list Event) : list nat :=
  match evs with
  | [] => []
  | EvMakeChild _ child :: evs' => Span.obj child :: created evs'
  | _ :: evs' => created evs'
  end.

(** *** The worlds the hooks leave behind *)

(** The world after a successful [on_before_execute]: one more object, the
    span in the slot, three more events. *)
Definition after_before (w : World) (conn : nat) (sp : Span.t)
    (statement : string) (parent : Span.t) : World :=
  mkWorld (S (next_obj w)) (span_ids w) (obj_repr w) (close_outcome w)
    (fun r =>
       if Nat.eqb r conn
       then mkConnection (_execution_options (conns w r))
                         (<["span" := VSpan sp]> (info (conns w r)))
       else conns w r)
    (events w ++ [EvMakeChild parent sp;
                  EvSetTag sp "statement" (VStr statement);
                  EvStart sp]).

(** The world after the span [sp] in the slot was finished and the slot
    cleared. *)
Definition after_finish (w : World) (conn : nat) (sp : Span.t)
    (exc_info : option ExcInfo) : World :=
  mkWorld (next_obj w) (span_ids w) (obj_repr w) (close_outcome w)
    (fun r =>
       if Nat.eqb r conn
       then mkConnection (_execution_options (conns w r))
                         (<["span" := VNone]> (info (conns w r)))
       else conns w r)
    (events w ++ [EvFinish sp exc_info]).

(** What the caller of [execute] gets back. *)
Definition outcome_result (st : Statement) (sent : string * Parameters)
  : Result (string * Parameters) :=
  match stmt_outcome st with
  | Returns => inr sent
  | Raises e raised => inl raised
  end.

Definition outcome_exc_info (st : Statement) : option ExcInfo :=
  match stmt_outcome st with
  | Returns => None
  | Raises e raised => Some (type_of e, e, None)
  end.

(** The events of a sequence of statement attempts: for each attempt that
    got as far as creating its span, the creation, the tag, the start and
    the finish of that span, one attempt after the other.  The two numbers
    are the object counter before and after. *)
Inductive blocks_from : nat -> list Event -> nat -> Prop :=
| blocks_nil (n : nat) : blocks_from n [] n
| blocks_cons (n m : nat) (parent sp : Span.t) (key : string) (value : PyVal)
    (exc_info : option ExcInfo) (rest : list Event) :
    Span.obj sp = n ->
    blocks_from (S n) rest m ->
    blocks_from n
      (EvMakeChild parent sp :: EvSetTag sp key value :: EvStart sp
         :: EvFinish sp exc_info :: rest) m.

(** A connection drawn from a handle of the handle factory carries a
    context name and a server span. *)
Definition bound (w : World) (conn : nat) : Prop :=
  is_Some (_execution_options (conns w conn) !! "context_name")
  /\ exists server_span,
       _execution_options (conns w conn) !! "server_span"
       = Some (VSpan server_span).

(** ** Reference collaborators

    The theorems below hold for every parser, url parser, secrets store
    and engine constructor.  The worked scenarios of the specification need
    concrete ones; these are the simplest that fit its words. *)

Definition ConfigurationError (key error : string) : Exception :=
  mkException "ConfigurationError" (key +:+ ": " +:+ error).

(** The text found under a key of the key path; none is the empty text. *)
Definition config_value (raw_config : RawConfig) (key_path key : string)
  : string :=
  default "" (raw_config !! (key_path +:+ "." +:+ key)).

(** Modelled from the spec: the parser of [baseplate.lib.config], which is
    not part of this module.  It reads, under the key path, the required
    key [url] (a string), the optional key [credentials_secret] (a string)
    and the optional key [pool_recycle] (an integer); a missing or
    malformed setting is a [ConfigurationError].  A value that is absent
    or empty counts as not given; the integer is read as a decimal
    literal. *)
Definition ref_parse (key_path : string) (raw_config : RawConfig)
  : Result Options :=
  let url_text := config_value raw_config key_path "url" in
  let secret_text := config_value raw_config key_path "credentials_secret" in
  let recycle_text := config_value raw_config key_path "pool_recycle" in
  if String.eqb url_text "" then
    inl (ConfigurationError (key_path +:+ ".url") "no value specified")
  else
    let secret :=
      if String.eqb secret_text "" then None else Some secret_text in
    if String.eqb recycle_text "" then
      inr (mkOptions url_text secret None)
    else
      match NilZero.int_of_string recycle_text with
      | Some d => inr (mkOptions url_text secret (Some (Z.of_int d)))
      | None =>
          inl (ConfigurationError (key_path +:+ ".pool_recycle")
                 "invalid literal for int()")
      end.

(** SQLAlchemy's url parser, tabulated on the urls of the scenarios of the
    specification; any other text is refused. *)
Definition ref_make_url (text : string) : Result URL.t :=
  if String.eqb text "db://host/db" then
    inr (URL.mk "db" None None (Some "host") None (Some "db") [])
  else if String.eqb text "db://user:pass@host/db" then
    inr (URL.mk "db" (Some "user") (Some "pass") (Some "host") None
           (Some "db") [])
  else
    inl (mkException "ArgumentError"
           ("Could not parse rfc1738 URL from string '" +:+ text +:+ "'")).

(** Modelled from the spec: the secrets store of [baseplate.lib.secrets],
    consumed as [resolve(secretKey) -> {username, password}]; a store is
    the table of the credentials it holds. *)
Definition ref_get_credentials
    (store : gmap string CredentialSecret.t) (secret_name : string)
  : Result CredentialSecret.t :=
  match store !! secret_name with
  | Some credentials => inr credentials
  | None => inl (mkException "SecretNotFoundError" secret_name)
  end.

(** SQLAlchemy's engine constructor: it keeps the url and the keyword
    arguments and attaches a queue pool of the default size, empty. *)
Definition ref_create_engine (u : URL.t) (kwargs : gmap string PyVal)
  : Result Engine :=
  inr (mkEngine u kwargs (QueuePool (mkQueuePool 5 0 0 (-5))) ∅).

Definition ref_engine_from_config :=
  engine_from_config ref_parse ref_make_url ref_get_credentials
    ref_create_engine.

(** An environment to run the hooks in: span ids count up from 1000, no
    connection carries any option, sessions close without complaint. *)
Definition empty_connection : Connection := mkConnection ∅ ∅.

Definition ref_world : World :=
  mkWorld 0 (fun o => 1000 + Z.of_nat o) (fun _ => "<object>")
          (fun _ _ => None) (fun _ => empty_connection) [].

(** [engine.connect()] on a handle, checking out the pooled connection
    behind reference [conn]: the connection inherits the execution options
    of the handle, and its [info] is the one the pooled connection had,
    which stays with it from one checkout to the next. *)
Definition connect (handle : Engine) (conn : nat) (w : World) : World :=
  mkWorld (next_obj w) (span_ids w) (obj_repr w) (close_outcome w)
          (fun r =>
             if Nat.eqb r conn
             then mkConnection (engine_options handle) (info (conns w r))
             else conns w r)
          (events w).

(** ** The scenarios of the specification *)

(** Scenario B: credentials in the url and a secret to replace them. *)
Definition scenario_B_config : RawConfig :=
  <["database.url" := "db://user:pass@host/db"]>
    (<["database.credentials_secret" := "db/creds"]> ∅).

Definition scenario_B_secrets : gmap string CredentialSecret.t :=
  <["db/creds" := CredentialSecret.mk "svc" "s3cr3t"]> ∅.

(** A configuration with a url and a secret name, to be used without a
    secrets store. *)
Definition secret_without_store_config : RawConfig :=
  <["database.url" := "db://host/db"]>
    (<["database.credentials_secret" := "db/creds"]> ∅).

(** Scenario D: a factory over an engine, the root span of a request, the
    handle made for the name [users_db], and a connection drawn from it. *)
Definition scenario_engine : Engine :=
  mkEngine (URL.mk "db" None None (Some "host") None (Some "db") []) ∅
    (QueuePool (mkQueuePool 10 7 3 0)) ∅.

Definition scenario_factory : SQLAlchemyEngineContextFactory :=
  new_factory scenario_engine.

Definition scenario_root : Span.t := Span.mk 0 7 None 7 "request".

Definition scenario_D_world : World :=
  connect (make_object_for_context scenario_factory "users_db" scenario_root) 0
    (mkWorld 1 (span_ids ref_world) (obj_repr ref_world)
       (close_outcome ref_world) (conns ref_world) []).

Definition select_1 : Statement := mkStatement "SELECT 1" None false Returns.

Definition driver_error : Exception :=
  mkException "OperationalError" "server closed the connection unexpectedly".

(** The exception of SQLAlchemy's own that wraps this error of the
    DBAPI. *)
Definition wrapped_driver_error : Exception :=
  mkException "sqlalchemy.exc.OperationalError"
    "(OperationalError) server closed the connection unexpectedly".

Definition select_1_failing : Statement :=
  mkStatement "SELECT 1" None false
    (Raises driver_error wrapped_driver_error).



(** A session whose [close] fails, and the observer that holds it. *)
Definition close_failure : Exception :=
  mkException "OperationalError" "connection already closed".

Definition failing_close_world : World :=
  mkWorld 2 (span_ids ref_world) (obj_repr ref_world)
    (fun _ _ => Some close_failure) (conns ref_world) [].

Definition scenario_observer : SQLAlchemySessionSpanObserver :=
  mkObserver
    (mkSession 1
       (make_object_for_context scenario_factory "users_db" scenario_root)).

(** A pool that is below its base size: its overflow counter is
    negative. *)
Definition idle_pool_factory : SQLAlchemyEngineContextFactory :=
  mkFactory
    (mkEngine (engine_url scenario_engine) ∅
       (QueuePool (mkQueuePool 10 2 1 (-7))) ∅).

Definition null_pool_factory : SQLAlchemyEngineContextFactory :=
  mkFactory (mkEngine (engine_url scenario_engine) ∅ (OtherPool "NullPool") ∅).

(** ** Statements of several connections, interleaved

    On one connection statements run one at a time; statements of
    different connections overlap freely.  A schedule says when a
    statement begins on a connection and when the driver is done with the
    statement of a connection.  [Begin] fires the before-execute hook; the
    statement is then pending on its connection, with the text that was
    sent, unless the hook raised.  [End] fires, for the statement pending
    on the connection, the after-execute hook or the error hook as the
    driver returned or raised.  A [Begin] on a busy connection and an
    [End] on an idle one are out of sequence and fire nothing. *)
Inductive Action :=
| Begin (conn : nat) (st : Statement)
| End (conn : nat).

Definition step_action
    (self : SQLAlchemyEngineContextFactory) (cursor : Cursor)
    (context : option ExecutionContext) (a : Action)
    (state : World * gmap nat (Statement * (string * Parameters)))
  : World * gmap nat (Statement * (string * Parameters)) :=
  let (w, pending) := state in
  match a with
  | Begin conn st =>
      match pending !! conn with
      | Some _ => (w, pending)
      | None =>
          match on_before_execute self conn cursor (stmt_text st)
                  (stmt_parameters st) context (stmt_executemany st) w with
          | (inr sent, w') => (w', <[conn := (st, sent)]> pending)
          | (inl _, w') => (w', pending)
          end
      end
  | End conn =>
      match pending !! conn with
      | None => (w, pending)
      | Some (st, sent) =>
          let finished :=
            match stmt_outcome st with
            | Returns =>
                on_after_execute self conn cursor (fst sent) (snd sent)
                  context (stmt_executemany st) w
            | Raises e raised =>
                on_error self (mkExceptionContext e conn) w
            end in
          (snd finished, delete conn pending)
      end
  end.

Fixpoint interleave
    (self : SQLAlchemyEngineContextFactory) (cursor : Cursor)
    (context : option ExecutionContext) (acts : list Action)
    (state : World * gmap nat (Statement * (string * Parameters)))
  : World * gmap nat (Statement * (string * Parameters)) :=
  match acts with
  | [] => state
  | a :: acts' =>
      interleave self cursor context acts'
        (step_action self cursor context a state)
  end.

(** The span in the slot of a connection, if the slot holds one. *)
Definition slot_span (w : World) (conn : nat) : option Span.t :=
  match info (conns w conn) !! "span" with
  | Some (VSpan sp) => Some sp
  | _ => None
  end.

(** What holds between the connections with a pending statement and the
    live spans, all along a schedule that started in the world [w0]: the
    slot of every busy connection holds a live span, every live span is in
    the slot of a busy connection, two busy connections hold different
    spans, and there are as many live spans as busy connections. *)
Definition interleave_inv (w0 : World)
    (state : World * gmap nat (Statement * (string * Parameters))) : Prop :=
  let (w, pending) := state in
  exists delta,
    events w = events w0 ++ delta
    /\ List.NoDup (live delta)
    /\ (forall o, In o (live delta) -> (o < next_obj w)%nat)
    /\ (forall c, is_Some (pending !! c) ->
          exists sp, slot_span w c = Some sp /\ In (Span.obj sp) (live delta))
    /\ (forall o, In o (live delta) ->
          exists c sp,
            is_Some (pending !! c) /\ slot_span w c = Some sp
            /\ Span.obj sp = o)
    /\ (forall c1 c2 sp1 sp2,
          is_Some (pending !! c1) -> is_Some (pending !! c2) ->
          slot_span w c1 = Some sp1 -> slot_span w c2 = Some sp2 ->
          Span.obj sp1 = Span.obj sp2 -> c1 = c2)
    /\ length (live delta) = base.size pending.

(** The calls that a sequence of statements makes on a bound connection,
    given the context name, the root span, the source of span ids and the
    object counter at the start: for each statement in turn, a child of
    the root is made, tagged with the statement text, started, and
    finished with the error of the statement if it had one. *)
Fixpoint statement_events
    (repr : nat -> string) (ids : nat -> Z) (context_name : PyVal)
    (root : Span.t) (o : nat) (sts : list Statement) : list Event :=
  match sts with
  | [] => []
  | st :: sts' =>
      let sp :=
        Span.mk o (Span.trace_id root) (Some (Span.id root)) (ids o)
          (str_of repr context_name +:+ ".execute") in
      EvMakeChild root sp
        :: EvSetTag sp "statement" (VStr (stmt_text st))
        :: EvStart sp
        :: EvFinish sp (outcome_exc_info st)
        :: statement_events repr ids context_name root (S o) sts'
  end.

(** *** Reading a batch and an annotated statement *)

(** [text] is the decimal numeral of [z]: the standard reader of decimal
    numerals reads it as the digits of [z], which have no leading zero
    and carry a minus sign exactly when [z] is negative.  For one number
    there is one such text. *)
Definition decimal_of (z : Z) (text : string) : Prop :=
  NilZero.int_of_string text = Some (Z.to_int z).

(** The value a gauge has after the calls of a batch: the one of the last
    [replace] under its name. *)
Fixpoint gauge_value (name : string) (batch : Batch) : option Z :=
  match batch with
  | [] => None
  | (n, v) :: rest =>
      match gauge_value name rest with
      | Some later => Some later
      | None => if String.eqb n name then Some v else None
      end
  end.

(** The text before the first comma and the text after it. *)
Fixpoint split_at_comma (s : string) : option (string * string) :=
  match s with
  | EmptyString => None
  | String c rest =>
      if String.eqb (String c EmptyString) "," then Some (EmptyString, rest)
      else
        match split_at_comma rest with
        | Some (before, after) => Some (String c before, after)
        | None => None
        end
  end.

(** A text with no line break in it (no line feed, no carriage return). *)
Fixpoint single_line (s : string) : bool :=
  match s with
  | EmptyString => true
  | String c rest =>
      negb (Nat.eqb (Ascii.nat_of_ascii c) 10)
      && negb (Nat.eqb (Ascii.nat_of_ascii c) 13)
      && single_line rest
  end.

(** A configuration that sets a recycle time, and keyword arguments that
    set one too. *)
Definition recycle_config : RawConfig :=
  <["database.url" := "db://host/db"]>
    (<["database.pool_recycle" := "3600"]> ∅).

Definition recycle_kwargs : gmap string PyVal :=
  <["pool_recycle" := VInt 60]> (<["echo" := VInt 1]> ∅).

(** A configuration whose url is not one, and a secrets store that lacks
    the secret of scenario B. *)
Definition bad_url_config : RawConfig := <["database.url" := "nonsense"]> ∅.

Definition other_secrets : gmap string CredentialSecret.t :=
  <["db/other" := CredentialSecret.mk "svc" "s3cr3t"]> ∅.

(** A connection whose [server_span] option is [None]. *)
Definition misbound_world : World :=
  mkWorld 1 (span_ids ref_world) (obj_repr ref_world)
    (close_outcome ref_world)
    (fun _ =>
       mkConnection
         (<["context_name" := VStr "users_db"]>
            (<["server_span" := VNone]> ∅)) ∅)
    [].

(** A configuration with credentials in the url and no secret name. *)
Definition url_only_config : RawConfig :=
  <["database.url" := "db://user:pass@host/db"]> ∅.

(** An engine that already carries options: one of its own and the
    binding of an earlier request. *)
Definition tuned_engine : Engine :=
  mkEngine (engine_url scenario_engine) ∅ (pool scenario_engine)
    (<["isolation_level" := VStr "AUTOCOMMIT"]>
       (<["context_name" := VStr "earlier"]> ∅)).

(** The parser of scenario B's session. *)
Definition scenario_B_session
  : @SQLAlchemySession (gmap string CredentialSecret.t) :=
  mkSQLAlchemySession (Some scenario_B_secrets) ∅.

(** Two connections drawn from the handle of scenario D. *)
Definition two_connections_world : World :=
  connect (make_object_for_context scenario_factory "users_db" scenario_root) 1
    scenario_D_world.

(** ** Proofs: strings *)

Lemma append_nil_l (s : string) : "" +:+ s = s.
Proof. reflexivity. Qed.

Lemma append_cons (c : Ascii.ascii) (a b : string) :
  String c a +:+ b = String c (a +:+ b).
Proof. reflexivity. Qed.

Lemma length_append (a b : string) :
  String.length (a +:+ b) = (String.length a + String.length b)%nat.
Proof.
  induction a as [|c a IH]; [reflexivity|].
  rewrite append_cons. simpl. now rewrite IH.
Qed.

Lemma substring_full (b : string) : substring 0 (String.length b) b = b.
Proof. induction b as [|c b IH]; simpl; [reflexivity | now rewrite IH]. Qed.

Lemma substring_append_r (a b : string) :
  substring (String.length a) (String.length b) (a +:+ b) = b.
Proof.
  induction a as [|c a IH].
  - rewrite append_nil_l. apply substring_full.
  - rewrite append_cons. simpl. exact IH.
Qed.

Lemma substring_append_l (a b : string) :
  substring 0 (String.length a) (a +:+ b) = a.
Proof.
  induction a as [|c a IH].
  - rewrite append_nil_l. destruct b; reflexivity.
  - rewrite append_cons. simpl. now rewrite IH.
Qed.

Lemma substring_split (s : string) (k : nat) :
  (k <= String.length s)%nat ->
  s = substring 0 k s +:+ substring k (String.length s - k) s.
Proof.
  revert k. induction s as [|c s IH]; intros k Hk; simpl in Hk.
  - replace k with 0%nat by lia. reflexivity.
  - destruct k as [|k].
    + change (String c s = "" +:+ substring 0 (String.length (String c s))
                                   (String c s)).
      now rewrite append_nil_l, substring_full.
    + simpl. rewrite append_cons. f_equal. apply IH. lia.
Qed.

(** [endswith] is true of the strings built by appending the suffix, and
    of no other. *)
Lemma endswith_inv (s suffix : string) :
  endswith s suffix = true -> exists a, s = a +:+ suffix.
Proof.
  unfold endswith. intros H. apply andb_true_iff in H as [Hle Heq].
  apply Nat.leb_le in Hle. apply String.eqb_eq in Heq.
  exists (substring 0 (String.length s - String.length suffix) s).
  pose proof (substring_split s (String.length s - String.length suffix))
    as Hsplit.
  replace (String.length s - (String.length s - String.length suffix))%nat
    with (String.length suffix) in Hsplit by lia.
  rewrite Heq in Hsplit. apply Hsplit. lia.
Qed.

(** The slice [[:-1]] takes the dot off a dotted prefix. *)
Lemma drop_last_dot (key_path : string) :
  drop_last (key_path +:+ ".") = key_path.
Proof.
  unfold drop_last. rewrite length_append. simpl.
  replace (String.length key_path + 1 - 1)%nat with (String.length key_path)
    by lia.
  apply substring_append_l.
Qed.


Lemma endswith_app (s suffix : string) : endswith (s +:+ suffix) suffix = true.
Proof.
  unfold endswith. rewrite length_append.
  replace (String.length s + String.length suffix - String.length suffix)%nat
    with (String.length s) by lia.
  rewrite substring_append_r, String.eqb_refl.
  apply andb_true_iff. split; [apply Nat.leb_le; lia | reflexivity].
Qed.

(** ** Proofs: the pool configurator *)

Section PoolConfiguratorFacts.

Context {SecretsStore : Type}.
Variable parse : string -> RawConfig -> Result Options.
Variable make_url : string -> Result URL.t.
Variable get_credentials : SecretsStore -> string -> Result CredentialSecret.t.
Variable create_engine : URL.t -> gmap string PyVal -> Result Engine.

Lemma call_run {A} (c : Call) (r : Result A) (log : list Call) :
  call c r log = (r, log ++ [c]).
Proof. reflexivity. Qed.

(** C10.  A prefix that does not end with a dot makes [engine_from_config]
    fail with an [AssertionError], whatever the configuration holds, and
    with no call made: the configuration was not parsed, no url was
    parsed, no secret was read and no engine was created. *)
Theorem engine_from_config_asserts_dotted_prefix
    (app_config : RawConfig) (secrets : option SecretsStore)
    (prefix : string) (kwargs : gmap string PyVal) (log : list Call) :
  endswith prefix "." = false ->
  engine_from_config parse make_url get_credentials create_engine
    app_config secrets prefix kwargs log
  = (inl AssertionError, log).
Proof.
  intros Hprefix. unfold engine_from_config, bind, assert_.
  rewrite Hprefix. reflexivity.
Qed.

(** C4, as the code has it.  When [credentials_secret] is set and no
    secrets store is given, [engine_from_config] raises: neither the
    secrets store nor the engine constructor is called; and when the prefix
    is dotted and the url parses, what it raises is the [TypeError] that
    names the missing argument. *)
Theorem engine_from_config_requires_secrets
    (app_config : RawConfig) (prefix : string) (kwargs : gmap string PyVal)
    (log : list Call) (options : Options) :
  parse (drop_last prefix) app_config = inr options ->
  truthy (credentials_secret options) = true ->
  exists (e : Exception) (calls : list Call),
    engine_from_config parse make_url get_credentials create_engine
      app_config None prefix kwargs log
    = (inl e, log ++ calls)
    /\ (forall c, c ∈ calls ->
          match c with
          | CallGetCredentials _ | CallCreateEngine _ _ => False
          | _ => True
          end)
    /\ (endswith prefix "." = true ->
        forall u, make_url (url options) = inr u ->
        e = TypeError "'secrets' is required if 'credentials_secret' is set").
Proof.
  intros Hparse Hset.
  unfold engine_from_config, bind, assert_.
  destruct (endswith prefix ".") eqn:Hprefix; simpl.
  - rewrite Hparse.
    destruct (make_url (url options)) as [e|u] eqn:Hurl; simpl.
    + exists e, [CallParse (drop_last prefix) app_config;
                 CallMakeUrl (url options)].
      rewrite <- app_assoc. split; [reflexivity|]. split.
      * intros c Hc. repeat (apply elem_of_cons in Hc as [->|Hc]; [exact I|]).
        inversion Hc.
      * intros _ u Hu. discriminate Hu.
    + destruct (credentials_secret options) as [secret_name|];
        [|discriminate Hset].
      simpl in Hset. simpl. rewrite Hset. simpl.
      exists (TypeError "'secrets' is required if 'credentials_secret' is set"),
        [CallParse (drop_last prefix) app_config; CallMakeUrl (url options)].
      rewrite <- app_assoc. split; [reflexivity|]. split.
      * intros c Hc. repeat (apply elem_of_cons in Hc as [->|Hc]; [exact I|]).
        inversion Hc.
      * reflexivity.
  - exists AssertionError, []. rewrite app_nil_r. split; [reflexivity|]. split.
    + intros c Hc. inversion Hc.
    + intros Hfalse. discriminate Hfalse.
Qed.

(** C9.  When [credentials_secret] is set and a secrets store is given,
    the secret is looked up under that name and the engine is created from
    the parsed url with its username and password replaced by the ones of
    the secret; driver name, host, port, database and query are those of
    the parsed url.  The engine returned is the one the constructor made
    from that url. *)
Theorem engine_from_config_substitutes_credentials
    (app_config : RawConfig) (store : SecretsStore) (prefix : string)
    (kwargs : gmap string PyVal) (log : list Call) (options : Options)
    (secret_name : string) (u : URL.t) (credentials : CredentialSecret.t) :
  endswith prefix "." = true ->
  parse (drop_last prefix) app_config = inr options ->
  credentials_secret options = Some secret_name ->
  secret_name <> "" ->
  make_url (url options) = inr u ->
  get_credentials store secret_name = inr credentials ->
  let u' :=
    URL.mk (URL.drivername u)
           (Some (CredentialSecret.username credentials))
           (Some (CredentialSecret.password credentials))
           (URL.host u) (URL.port u) (URL.database u) (URL.query u) in
  let kwargs' :=
    match pool_recycle options with
    | Some seconds => setdefault "pool_recycle" (VInt seconds) kwargs
    | None => kwargs
    end in
  engine_from_config parse make_url get_credentials create_engine
    app_config (Some store) prefix kwargs log
  = (create_engine u' kwargs',
     log ++ [CallParse (drop_last prefix) app_config;
             CallMakeUrl (url options);
             CallGetCredentials secret_name;
             CallCreateEngine u' kwargs']).
Proof.
  intros Hprefix Hparse Hsecret Hnonempty Hurl Hcreds u' kwargs'.
  unfold engine_from_config, bind, assert_.
  rewrite Hprefix. simpl. rewrite Hparse, Hurl. simpl.
  rewrite Hsecret. unfold truthy.
  destruct (String.eqb_spec secret_name "") as [Heq|_]; [contradiction|].
  simpl. rewrite Hcreds. simpl.
  unfold call, bind, modify, lift. simpl.
  rewrite <- !app_assoc. reflexivity.
Qed.

(** [SQLAlchemySession.parse] builds its prefix by appending the dot, so
    the assertion of [engine_from_config] holds and the first thing done
    is to parse the configuration under the key path it was given. *)
Lemma SQLAlchemySession_parse_reads_key_path
    (self : SQLAlchemySession) (key_path : string) (raw_config : RawConfig)
    (log : list Call) :
  exists r rest,
    SQLAlchemySession_parse parse make_url get_credentials create_engine
      self key_path raw_config log
    = (r, log ++ CallParse key_path raw_config :: rest).
Proof.
  unfold SQLAlchemySession_parse, engine_from_config, bind, assert_.
  rewrite endswith_app, drop_last_dot. simpl.
  destruct (parse key_path raw_config) as [e|options]; simpl; [eauto|].
  destruct (make_url (url options)) as [e|u]; simpl.
  { eexists _, _. rewrite <- app_assoc. reflexivity. }
  destruct (credentials_secret options) as [secret_name|]; simpl.
  - destruct (String.eqb secret_name ""); simpl.
    + destruct (create_engine _ _) as [e|built]; simpl;
        eexists _, _; rewrite <- !app_assoc; reflexivity.
    + destruct (secrets self) as [store|]; simpl.
      * destruct (get_credentials store _) as [e|credentials]; simpl.
        { eexists _, _. rewrite <- !app_assoc. reflexivity. }
        destruct (create_engine _ _) as [e|built]; simpl;
          eexists _, _; rewrite <- !app_assoc; reflexivity.
      * eexists _, _. rewrite <- app_assoc. reflexivity.
  - destruct (create_engine _ _) as [e|built]; simpl;
      eexists _, _; rewrite <- !app_assoc; reflexivity.
Qed.

End PoolConfiguratorFacts.

(** ** Proofs: the query execution interceptor *)

Lemma on_before_execute_ok
    (self : SQLAlchemyEngineContextFactory) (conn : nat) (cursor : Cursor)
    (statement : string) (parameters : Parameters)
    (context : option ExecutionContext) (executemany : bool) (w : World)
    (context_name : PyVal) (server_span : Span.t) :
  _execution_options (conns w conn) !! "context_name" = Some context_name ->
  _execution_options (conns w conn) !! "server_span"
    = Some (VSpan server_span) ->
  let sp :=
    Span.mk (next_obj w) (Span.trace_id server_span)
      (Some (Span.id server_span)) (span_ids w (next_obj w))
      (str_of (obj_repr w) context_name +:+ ".execute") in
  on_before_execute self conn cursor statement parameters context
    executemany w
  = (inr (statement +:+ " -- trace:" +:+ format_d (Span.trace_id sp)
                    +:+ ",span:" +:+ format_d (Span.id sp),
          parameters),
     after_before w conn sp statement server_span).
Proof.
  intros Hname Hspan sp.
  unfold on_before_execute, bind, gets, getitem. simpl.
  rewrite Hname, Hspan. simpl.
  unfold after_before. rewrite <- !app_assoc. reflexivity.
Qed.

Lemma on_after_execute_ok
    (self : SQLAlchemyEngineContextFactory) (conn : nat) (cursor : Cursor)
    (statement : string) (parameters : Parameters)
    (context : option ExecutionContext) (executemany : bool) (w : World)
    (sp : Span.t) :
  info (conns w conn) !! "span" = Some (VSpan sp) ->
  on_after_execute self conn cursor statement parameters context
    executemany w
  = (inr tt, after_finish w conn sp None).
Proof.
  intros Hslot. unfold on_after_execute, bind, gets, getitem. simpl.
  rewrite Hslot. reflexivity.
Qed.

Lemma on_error_ok
    (self : SQLAlchemyEngineContextFactory) (e : Exception) (conn : nat)
    (w : World) (sp : Span.t) :
  info (conns w conn) !! "span" = Some (VSpan sp) ->
  on_error self (mkExceptionContext e conn) w
  = (inr tt, after_finish w conn sp (Some (type_of e, e, None))).
Proof.
  intros Hslot. unfold on_error, bind, gets, getitem. simpl.
  rewrite Hslot. reflexivity.
Qed.

Lemma after_before_slot (w : World) (conn : nat) (sp : Span.t)
    (statement : string) (parent : Span.t) :
  info (conns (after_before w conn sp statement parent) conn) !! "span"
  = Some (VSpan sp).
Proof.
  unfold after_before. simpl. rewrite Nat.eqb_refl. simpl.
  apply lookup_insert_eq.
Qed.

Lemma after_finish_slot (w : World) (conn : nat) (sp : Span.t)
    (exc_info : option ExcInfo) :
  info (conns (after_finish w conn sp exc_info) conn) !! "span" = Some VNone.
Proof.
  unfold after_finish. simpl. rewrite Nat.eqb_refl. simpl.
  apply lookup_insert_eq.
Qed.

Lemma execute_ok
    (self : SQLAlchemyEngineContextFactory) (conn : nat) (cursor : Cursor)
    (context : option ExecutionContext) (st : Statement) (w : World)
    (context_name : PyVal) (server_span : Span.t) :
  _execution_options (conns w conn) !! "context_name" = Some context_name ->
  _execution_options (conns w conn) !! "server_span"
    = Some (VSpan server_span) ->
  let sp :=
    Span.mk (next_obj w) (Span.trace_id server_span)
      (Some (Span.id server_span)) (span_ids w (next_obj w))
      (str_of (obj_repr w) context_name +:+ ".execute") in
  execute self conn cursor context st w
  = (outcome_result st
       (stmt_text st +:+ " -- trace:" +:+ format_d (Span.trace_id sp)
                     +:+ ",span:" +:+ format_d (Span.id sp),
        stmt_parameters st),
     after_finish (after_before w conn sp (stmt_text st) server_span)
       conn sp (outcome_exc_info st)).
Proof.
  intros Hname Hspan sp. unfold execute, bind.
  rewrite (on_before_execute_ok _ _ _ _ _ _ _ _ _ _ Hname Hspan).
  fold sp. unfold outcome_result, outcome_exc_info.
  destruct (stmt_outcome st) as [|e raised].
  - rewrite (on_after_execute_ok _ _ _ _ _ _ _ _ sp
               (after_before_slot _ _ _ _ _)).
    reflexivity.
  - rewrite (on_error_ok _ _ _ _ sp (after_before_slot _ _ _ _ _)).
    reflexivity.
Qed.

Lemma execute_block
    (self : SQLAlchemyEngineContextFactory) (conn : nat) (cursor : Cursor)
    (context : option ExecutionContext) (st : Statement) (w : World) :
  let w' := snd (execute self conn cursor context st w) in
  (events w' = events w /\ next_obj w' = next_obj w
   /\ _execution_options (conns w' conn) = _execution_options (conns w conn))
  \/ (exists parent sp key value exc_info,
        events w' = events w ++ [EvMakeChild parent sp; EvSetTag sp key value;
                                 EvStart sp; EvFinish sp exc_info]
        /\ Span.obj sp = next_obj w
        /\ next_obj w' = S (next_obj w)
        /\ _execution_options (conns w' conn)
           = _execution_options (conns w conn)
        /\ info (conns w' conn) !! "span" = Some VNone).
Proof.
  destruct (_execution_options (conns w conn) !! "context_name")
    as [context_name|] eqn:Hname.
  2:{ left. unfold execute, on_before_execute, bind, gets, getitem. simpl.
      rewrite Hname. simpl. auto. }
  destruct (_execution_options (conns w conn) !! "server_span")
    as [server_span|] eqn:Hspan.
  2:{ left. unfold execute, on_before_execute, bind, gets, getitem. simpl.
      rewrite Hname, Hspan. simpl. auto. }
  destruct server_span as [|z|s|server_span].
  4:{ right. rewrite (execute_ok _ _ _ _ _ _ _ _ Hname Hspan). simpl.
      eexists _, _, _, _, _. rewrite Nat.eqb_refl. simpl.
      rewrite <- app_assoc. simpl.
      split; [reflexivity|]. split; [reflexivity|]. split; [reflexivity|].
      split; [reflexivity|]. apply lookup_insert_eq. }
  all: left; unfold execute, on_before_execute, bind, gets, getitem; simpl;
    rewrite Hname, Hspan; simpl; auto.
Qed.

Lemma run_blocks
    (self : SQLAlchemyEngineContextFactory) (conn : nat) (cursor : Cursor)
    (context : option ExecutionContext) (sts : list Statement) (w : World) :
  let w' := snd (run self conn cursor context sts w) in
  exists delta,
    events w' = events w ++ delta
    /\ blocks_from (next_obj w) delta (next_obj w').
Proof.
  revert w. induction sts as [|st sts IH]; intros w; simpl.
  - exists []. rewrite app_nil_r. split; [reflexivity | constructor].
  - unfold bind, attempt.
    destruct (execute self conn cursor context st w) as [r w1] eqn:Hexec.
    specialize (IH w1). simpl in IH.
    destruct (run self conn cursor context sts w1) as [[e|rs] w2] eqn:Hrun;
      simpl in *.
    all: destruct IH as (delta & Hev & Hblocks).
    all: pose proof (execute_block self conn cursor context st w) as Hblock.
    all: rewrite Hexec in Hblock; simpl in Hblock.
    all: destruct Hblock as [(He & Hn & _)
                            |(parent & sp & key & value & ei & He & Ho & Hn & _)].
    all: rewrite Hev, He.
    1,3: exists delta; rewrite <- Hn; auto.
    all: eexists; rewrite <- app_assoc; split; [reflexivity|]; simpl.
    all: constructor; [exact Ho | rewrite <- Hn; exact Hblocks].
Qed.

(** The hooks write to the connection they are called for and to no
    other. *)
Lemma execute_frame
    (self : SQLAlchemyEngineContextFactory) (conn : nat) (cursor : Cursor)
    (context : option ExecutionContext) (st : Statement) (w : World)
    (other : nat) :
  other <> conn ->
  conns (snd (execute self conn cursor context st w)) other = conns w other.
Proof.
  intros Hother. apply Nat.eqb_neq in Hother.
  destruct (_execution_options (conns w conn) !! "context_name")
    as [context_name|] eqn:Hname.
  2:{ unfold execute, on_before_execute, bind, gets, getitem. simpl.
      rewrite Hname. reflexivity. }
  destruct (_execution_options (conns w conn) !! "server_span")
    as [server_span|] eqn:Hspan.
  2:{ unfold execute, on_before_execute, bind, gets, getitem. simpl.
      rewrite Hname, Hspan. reflexivity. }
  destruct server_span as [|z|s|server_span].
  4:{ rewrite (execute_ok _ _ _ _ _ _ _ _ Hname Hspan). simpl.
      rewrite Hother. reflexivity. }
  all: unfold execute, on_before_execute, bind, gets, getitem; simpl;
    rewrite Hname, Hspan; reflexivity.
Qed.

Lemma run_frame
    (self : SQLAlchemyEngineContextFactory) (conn : nat) (cursor : Cursor)
    (context : option ExecutionContext) (sts : list Statement) (w : World)
    (other : nat) :
  other <> conn ->
  conns (snd (run self conn cursor context sts w)) other = conns w other.
Proof.
  intros Hother. revert w.
  induction sts as [|st sts IH]; intros w; simpl; [reflexivity|].
  unfold bind, attempt.
  pose proof (execute_frame self conn cursor context st w other Hother)
    as Hstep.
  destruct (execute self conn cursor context st w) as [r w1].
  specialize (IH w1).
  destruct (run self conn cursor context sts w1) as [[e|rs] w2];
    simpl in *; congruence.
Qed.

Lemma live_from_app (acc : list nat) (a b : list Event) :
  live_from acc (a ++ b) = live_from (live_from acc a) b.
Proof.
  revert acc. induction a as [|ev a IH]; intros acc; simpl; [reflexivity|].
  apply IH.
Qed.

Lemma blocks_le (n m : nat) (delta : list Event) :
  blocks_from n delta m -> (n <= m)%nat.
Proof. induction 1; lia. Qed.

Lemma blocks_app (n m k : nat) (a b : list Event) :
  blocks_from n a m -> blocks_from m b k -> blocks_from n (a ++ b) k.
Proof.
  induction 1 as [|n m parent sp key value ei rest Ho Hrest IH]; intros Hb;
    simpl; [exact Hb|].
  constructor; [exact Ho | apply IH, Hb].
Qed.

Lemma blocks_live (n m : nat) (delta : list Event) :
  blocks_from n delta m -> live delta = [].
Proof.
  unfold live. induction 1 as [|n m parent sp key value ei rest Ho Hrest IH];
    simpl; [reflexivity|].
  rewrite Nat.eqb_refl. simpl. exact IH.
Qed.

Lemma blocks_live_take (n m : nat) (delta : list Event) :
  blocks_from n delta m ->
  forall k, (length (live (take k delta)) <= 1)%nat.
Proof.
  unfold live. induction 1 as [|n m parent sp key value ei rest Ho Hrest IH];
    intros k.
  - rewrite take_nil. simpl. lia.
  - destruct k as [|[|[|[|k]]]]; simpl; try lia.
    rewrite Nat.eqb_refl. simpl. apply IH.
Qed.

Lemma blocks_created (n m : nat) (delta : list Event) :
  blocks_from n delta m -> created delta = seq n (m - n).
Proof.
  induction 1 as [|n m parent sp key value ei rest Ho Hrest IH]; simpl.
  - rewrite Nat.sub_diag. reflexivity.
  - apply blocks_le in Hrest as Hle.
    replace (m - n)%nat with (S (m - S n)) by lia. simpl.
    rewrite Ho, IH. reflexivity.
Qed.

Lemma blocks_counts (n m : nat) (delta : list Event) :
  blocks_from n delta m ->
  forall o,
    count_if (is_start_of o) delta
      = (if (n <=? o)%nat && (o <? m)%nat then 1 else 0)%nat
    /\ count_if (is_finish_of o) delta
      = (if (n <=? o)%nat && (o <? m)%nat then 1 else 0)%nat.
Proof.
  unfold count_if.
  induction 1 as [|n m parent sp key value ei rest Ho Hrest IH]; intros o.
  - simpl. destruct (n <=? o)%nat eqn:H1, (o <? n)%nat eqn:H2; simpl; auto.
    apply Nat.leb_le in H1. apply Nat.ltb_lt in H2. lia.
  - apply blocks_le in Hrest as Hle. destruct (IH o) as [IHs IHf].
    simpl. rewrite Ho.
    destruct (Nat.eqb_spec n o) as [->|Hne]; simpl; rewrite IHs, IHf.
    + replace (S o <=? o)%nat with false by (symmetry; apply Nat.leb_gt; lia).
      replace (o <=? o)%nat with true by (symmetry; apply Nat.leb_le; lia).
      replace (o <? m)%nat with true by (symmetry; apply Nat.ltb_lt; lia).
      simpl. auto.
    + destruct (Nat.leb_spec (S n) o), (Nat.leb_spec n o); try lia; auto.
Qed.

Lemma elem_of_seq_iff (n len o : nat) :
  o ∈ seq n len <-> (n <= o < n + len)%nat.
Proof. rewrite list_elem_of_In. apply in_seq. Qed.

Lemma run_bound
    (self : SQLAlchemyEngineContextFactory) (conn : nat) (cursor : Cursor)
    (context : option ExecutionContext) (sts : list Statement) (w : World) :
  bound w conn ->
  let w' := snd (run self conn cursor context sts w) in
  next_obj w' = (next_obj w + length sts)%nat
  /\ (sts <> [] -> info (conns w' conn) !! "span" = Some VNone).
Proof.
  revert w. induction sts as [|st sts IH]; intros w Hbound; simpl.
  - split; [lia | congruence].
  - destruct Hbound as [[context_name Hname] [server_span Hspan]].
    unfold bind, attempt.
    rewrite (execute_ok self conn cursor context st w _ _ Hname Hspan).
    match goal with
    | |- context [run self conn cursor context sts ?w1] =>
        specialize (IH w1); set (w1' := w1) in *
    end.
    assert (Hbound1 : bound w1' conn).
    { unfold bound, w1'. simpl. rewrite !Nat.eqb_refl. simpl.
      rewrite Hname, Hspan. eauto. }
    specialize (IH Hbound1). simpl in IH.
    destruct (run self conn cursor context sts w1') as [[e|rs] w2] eqn:Hrun;
      simpl in *.
    all: destruct IH as [Hn Hslot]; split; [rewrite Hn; unfold w1'; simpl; lia|].
    all: intros _; destruct sts as [|st' sts']; [|apply Hslot; congruence].
    all: simpl in Hrun; inversion Hrun; subst w2.
    apply after_finish_slot.
Qed.

(** C1.  Whatever the connection and whatever the statements attempted on
    it, the events the attempts add to the world are, attempt after
    attempt, the creation, tagging, start and finish of one new span
    ([blocks_from]).  So at every instant (after every prefix of these
    events) at most one of the spans is live, and none is when the attempts
    are over; the spans created are pairwise different objects; each of
    them is started exactly once and finished exactly once, on success and
    on error alike, and nothing else is started or finished.  On a
    connection drawn from a handle of the factory every attempt creates its
    span and the slot is cleared when the attempts are over; there
    [on_before_execute] leaves in the slot the one span it created and
    started, and [on_after_execute] and [on_error] each finish that span
    with one call and put [None] in the slot. *)
Theorem one_live_span_per_connection
    (self : SQLAlchemyEngineContextFactory) (conn : nat) (cursor : Cursor)
    (context : option ExecutionContext) (sts : list Statement) (w : World) :
  let w' := snd (run self conn cursor context sts w) in
  (exists delta,
    events w' = events w ++ delta
    /\ blocks_from (next_obj w) delta (next_obj w')
    /\ (forall k, length (live (take k delta)) <= 1)%nat
    /\ live delta = []
    /\ NoDup (created delta)
    /\ (forall o, o ∈ created delta ->
          count_if (is_start_of o) delta = 1%nat
          /\ count_if (is_finish_of o) delta = 1%nat)
    /\ (forall o, o ∉ created delta ->
          count_if (is_start_of o) delta = 0%nat
          /\ count_if (is_finish_of o) delta = 0%nat)
    /\ (bound w conn ->
          length (created delta) = length sts
          /\ (sts <> [] -> info (conns w' conn) !! "span" = Some VNone)))
  /\ (bound w conn ->
      forall statement parameters executemany,
      exists sp sent w1 started,
        on_before_execute self conn cursor statement parameters context
          executemany w = (inr sent, w1)
        /\ info (conns w1 conn) !! "span" = Some (VSpan sp)
        /\ events w1 = events w ++ started
        /\ created started = [Span.obj sp]
        /\ live started = [Span.obj sp]
        /\ (exists w2,
              on_after_execute self conn cursor (fst sent) (snd sent)
                context executemany w1 = (inr tt, w2)
              /\ events w2 = events w1 ++ [EvFinish sp None]
              /\ info (conns w2 conn) !! "span" = Some VNone)
        /\ (forall e, exists w2,
              on_error self (mkExceptionContext e conn) w1 = (inr tt, w2)
              /\ events w2
                 = events w1 ++ [EvFinish sp (Some (type_of e, e, None))]
              /\ info (conns w2 conn) !! "span" = Some VNone)).
Proof.
  intros w'. split.
  - destruct (run_blocks self conn cursor context sts w) as (delta & Hev & Hb).
    fold w' in Hev, Hb. exists delta.
    pose proof (blocks_created _ _ _ Hb) as Hcreated.
    pose proof (blocks_le _ _ _ Hb) as Hle.
    split; [exact Hev|]. split; [exact Hb|].
    split; [exact (blocks_live_take _ _ _ Hb)|].
    split; [exact (blocks_live _ _ _ Hb)|].
    split; [rewrite Hcreated; apply NoDup_ListNoDup, List.seq_NoDup|].
    split; [|split].
    + intros o Ho. rewrite Hcreated in Ho. apply elem_of_seq_iff in Ho.
      destruct (blocks_counts _ _ _ Hb o) as [Hs Hf]. rewrite Hs, Hf.
      replace (next_obj w <=? o)%nat with true
        by (symmetry; apply Nat.leb_le; lia).
      replace (o <? next_obj w')%nat with true
        by (symmetry; apply Nat.ltb_lt; lia).
      auto.
    + intros o Ho. rewrite Hcreated, elem_of_seq_iff in Ho.
      destruct (blocks_counts _ _ _ Hb o) as [Hs Hf]. rewrite Hs, Hf.
      destruct (Nat.leb_spec (next_obj w) o), (Nat.ltb_spec o (next_obj w'));
        simpl; auto; lia.
    + intros Hbound.
      destruct (run_bound self conn cursor context sts w Hbound)
        as [Hn Hslot].
      fold w' in Hn, Hslot. split; [|exact Hslot].
      rewrite Hcreated, length_seq. lia.
  - intros [[context_name Hname] [server_span Hspan]]
      statement parameters executemany.
    eexists _, _, _, _.
    split; [apply (on_before_execute_ok self conn cursor statement
                     parameters context executemany w _ _ Hname Hspan)|].
    split; [apply after_before_slot|].
    split; [reflexivity|]. split; [reflexivity|]. split; [reflexivity|].
    split.
    + eexists. split; [apply on_after_execute_ok, after_before_slot|].
      split; [reflexivity | apply after_finish_slot].
    + intros e. eexists. split; [apply on_error_ok, after_before_slot|].
      split; [reflexivity | apply after_finish_slot].
Qed.

(** [format_d] writes the decimal numeral of its argument: reading the
    text back as a decimal numeral gives the number. *)
Lemma format_d_read_back (z : Z) :
  Z.of_int <$> NilZero.int_of_string (format_d z) = Some z.
Proof.
  unfold format_d. rewrite NilZero.isi.
  - simpl. now rewrite DecimalZ.of_to.
  - destruct z as [|p|p]; simpl; try discriminate.
    intros H. injection H as H.
    exact (DecimalPos.Unsigned.to_uint_nonnil p H).
  - destruct z as [|p|p]; simpl; try discriminate.
    intros H. injection H as H.
    exact (DecimalPos.Unsigned.to_uint_nonnil p H).
Qed.

Lemma format_d_decimal (z : Z) : decimal_of z (format_d z).
Proof.
  unfold decimal_of, format_d. apply NilZero.isi.
  - destruct z as [|p|p]; simpl; try discriminate.
    intros H. injection H as H.
    exact (DecimalPos.Unsigned.to_uint_nonnil p H).
  - destruct z as [|p|p]; simpl; try discriminate.
    intros H. injection H as H.
    exact (DecimalPos.Unsigned.to_uint_nonnil p H).
Qed.

Lemma decimal_of_value (z : Z) (text : string) :
  decimal_of z text -> Z.of_int <$> NilZero.int_of_string text = Some z.
Proof.
  unfold decimal_of. intros ->. simpl. now rewrite DecimalZ.of_to.
Qed.

Lemma decimal_of_unique (z : Z) (text text' : string) :
  decimal_of z text -> decimal_of z text' -> text = text'.
Proof.
  unfold decimal_of. intros H H'.
  apply NilZero.sis in H, H'. congruence.
Qed.

(** The numerals at the ends of the range of a 64-bit id, and a negative
    one. *)
Example format_d_examples :
  format_d 0 = "0"
  /\ format_d 7 = "7"
  /\ format_d 1001 = "1001"
  /\ format_d 18446744073709551615 = "18446744073709551615"
  /\ format_d (-5) = "-5".
Proof. repeat split. Qed.

(** The handle the factory makes carries the name and the span it was
    made for, whatever options the engine had before. *)
Lemma handle_options
    (factory : SQLAlchemyEngineContextFactory) (name : string)
    (span : Span.t) :
  engine_options (make_object_for_context factory name span)
    !! "context_name" = Some (VStr name)
  /\ engine_options (make_object_for_context factory name span)
    !! "server_span" = Some (VSpan span).
Proof.
  unfold make_object_for_context, execution_options. simpl.
  split; apply lookup_union_Some_l.
  - apply lookup_insert_eq.
  - rewrite lookup_insert_ne by discriminate. apply lookup_insert_eq.
Qed.

Lemma on_before_execute_inv
    (self : SQLAlchemyEngineContextFactory) (conn : nat) (cursor : Cursor)
    (statement : string) (parameters : Parameters)
    (context : option ExecutionContext) (executemany : bool) (w w1 : World)
    (sent : string * Parameters) :
  on_before_execute self conn cursor statement parameters context
    executemany w = (inr sent, w1) ->
  exists context_name server_span,
    _execution_options (conns w conn) !! "context_name" = Some context_name
    /\ _execution_options (conns w conn) !! "server_span"
       = Some (VSpan server_span).
Proof.
  unfold on_before_execute, bind, gets, getitem. simpl.
  destruct (_execution_options (conns w conn) !! "context_name")
    as [context_name|]; simpl; [|discriminate].
  destruct (_execution_options (conns w conn) !! "server_span")
    as [[|z|s|server_span]|]; simpl; try discriminate.
  intros _. eauto.
Qed.

(** C2.  On a connection drawn from a handle made for the name [name] and
    the root span [root], [on_before_execute] returns the statement with
    the comment [ -- trace:<trace id>,span:<span id>] appended, and the
    parameters as they came.  Both ids are written as decimal numerals:
    the text written for each is the one decimal numeral of the id, and
    read back it gives the id.  The ids are those of a span it has just
    created as a child of [root] (same trace, [root] as parent, the id
    the tracing system drew) under the name [name.execute], tagged with
    the statement text as it came, started, and stored in the slot [span]
    of the connection; those three calls are all it made. *)
Theorem on_before_execute_annotates
    (factory self : SQLAlchemyEngineContextFactory) (conn : nat)
    (cursor : Cursor) (statement : string) (parameters : Parameters)
    (context : option ExecutionContext) (executemany : bool) (w : World)
    (name : string) (root : Span.t) :
  _execution_options (conns w conn)
    = engine_options (make_object_for_context factory name root) ->
  exists sp w',
    on_before_execute self conn cursor statement parameters context
      executemany w
    = (inr (statement +:+ " -- trace:" +:+ format_d (Span.trace_id sp)
                      +:+ ",span:" +:+ format_d (Span.id sp),
            parameters),
       w')
    /\ decimal_of (Span.trace_id sp) (format_d (Span.trace_id sp))
    /\ decimal_of (Span.id sp) (format_d (Span.id sp))
    /\ Z.of_int <$> NilZero.int_of_string (format_d (Span.trace_id sp))
       = Some (Span.trace_id sp)
    /\ Z.of_int <$> NilZero.int_of_string (format_d (Span.id sp))
       = Some (Span.id sp)
    /\ Span.name sp = name +:+ ".execute"
    /\ Span.trace_id sp = Span.trace_id root
    /\ Span.parent_id sp = Some (Span.id root)
    /\ Span.id sp = span_ids w (next_obj w)
    /\ Span.obj sp = next_obj w
    /\ events w' = events w ++ [EvMakeChild root sp;
                                EvSetTag sp "statement" (VStr statement);
                                EvStart sp]
    /\ info (conns w' conn) !! "span" = Some (VSpan sp).
Proof.
  intros Hhandle.
  destruct (handle_options factory name root) as [Hname Hspan].
  rewrite <- Hhandle in Hname, Hspan.
  eexists _, _. split.
  - apply (on_before_execute_ok self conn cursor statement parameters
             context executemany w _ _ Hname Hspan).
  - split; [apply format_d_decimal|]. split; [apply format_d_decimal|].
    split; [apply format_d_read_back|]. split; [apply format_d_read_back|].
    split; [reflexivity|]. split; [reflexivity|]. split; [reflexivity|].
    split; [reflexivity|]. split; [reflexivity|]. split; [reflexivity|].
    apply after_before_slot.
Qed.


(** C7.  On a connection whose execution options lack [context_name] or
    lack [server_span], [on_before_execute] raises the [KeyError] of the
    missing key and leaves the world as it found it: no span was created,
    no call was made, the slot was not written. *)
Theorem on_before_execute_unbound_raises
    (self : SQLAlchemyEngineContextFactory) (conn : nat) (cursor : Cursor)
    (statement : string) (parameters : Parameters)
    (context : option ExecutionContext) (executemany : bool) (w : World) :
  _execution_options (conns w conn) !! "context_name" = None
  \/ _execution_options (conns w conn) !! "server_span" = None ->
  exists key,
    (key = "context_name" \/ key = "server_span")
    /\ _execution_options (conns w conn) !! key = None
    /\ on_before_execute self conn cursor statement parameters context
         executemany w
       = (inl (KeyError key), w).
Proof.
  intros Hmissing.
  unfold on_before_execute, bind, gets, getitem. simpl.
  destruct (_execution_options (conns w conn) !! "context_name")
    as [context_name|] eqn:Hname; simpl.
  - destruct Hmissing as [Hmissing|Hmissing]; [discriminate|].
    rewrite Hmissing. simpl. exists "server_span". auto.
  - exists "context_name". auto.
Qed.

(** ** Proofs: the session lifecycle observer *)

Lemma close_run (s : Session) (w : World) :
  close s w
  = (match close_outcome w s (events w) with
     | Some e => inl e
     | None => inr tt
     end,
     mkWorld (next_obj w) (span_ids w) (obj_repr w) (close_outcome w)
       (conns w) (events w ++ [EvSessionClose s])).
Proof.
  unfold close, bind, gets, emit, modify. simpl.
  destruct (close_outcome w s (events w)); reflexivity.
Qed.

(** The session factory makes a session bound to the handle of the engine
    factory and registers, on the span it was given, one observer that
    holds this session. *)
Lemma session_factory_registers_observer
    (self : SQLAlchemyEngineContextFactory) (name : string) (span : Span.t)
    (w : World) :
  let s := mkSession (next_obj w) (make_object_for_context self name span) in
  SQLAlchemySessionContextFactory.make_object_for_context self name span w
  = (inr s,
     mkWorld (S (next_obj w)) (span_ids w) (obj_repr w) (close_outcome w)
       (conns w) (events w ++ [EvRegister span (mkObserver s)])).
Proof. reflexivity. Qed.

(** C5, as the code has it.  [on_finish] calls [close] on its session
    and has no handler around the call: it returns normally when [close]
    does, and when [close] raises, [on_finish] raises that same
    exception. *)
Theorem on_finish_raises_what_close_raises
    (self : SQLAlchemySessionSpanObserver) (exc_info : option ExcInfo)
    (w : World) :
  (close_outcome w (session self) (events w) = None ->
   fst (on_finish self exc_info w) = inr tt)
  /\ (forall e,
        close_outcome w (session self) (events w) = Some e ->
        fst (on_finish self exc_info w) = inl e)
  /\ events (snd (on_finish self exc_info w))
     = events w ++ [EvSessionClose (session self)].
Proof.
  unfold on_finish. rewrite close_run. simpl.
  split; [intros ->; reflexivity|].
  split; [intros e ->; reflexivity | reflexivity].
Qed.

(** C6.  Whatever the finish signal, [on_finish] makes one call, the
    close of its session: the events grow by that call alone (so by no
    commit and no rollback), nothing else in the world changes, and the
    outcome is the one of [close]; a different finish signal gives the
    same result and the same world. *)
Theorem on_finish_only_closes
    (self : SQLAlchemySessionSpanObserver) (exc_info : option ExcInfo)
    (w : World) :
  on_finish self exc_info w
  = (match close_outcome w (session self) (events w) with
     | Some e => inl e
     | None => inr tt
     end,
     mkWorld (next_obj w) (span_ids w) (obj_repr w) (close_outcome w)
       (conns w) (events w ++ [EvSessionClose (session self)]))
  /\ (forall s, (EvSessionCommit s ∉ [EvSessionClose (session self)])
                /\ (EvSessionRollback s ∉ [EvSessionClose (session self)]))
  /\ (forall exc_info',
        on_finish self exc_info' w = on_finish self exc_info w).
Proof.
  split; [apply close_run|]. split; [|reflexivity].
  intros s. split; intros H; apply list_elem_of_singleton in H; discriminate.
Qed.

(** ** Proofs: the runtime metrics reporter *)

(** C8.  On a pool that is not a queue pool [report_runtime_metrics]
    returns with the batch untouched; on a queue pool it adds four gauges
    to the batch: the size, the checked-in count, the checked-out count,
    and the overflow or zero, whichever is larger; that last value is
    never negative. *)
Theorem report_runtime_metrics_gauges
    (self : SQLAlchemyEngineContextFactory) (batch : Batch) :
  match pool (engine self) with
  | OtherPool _ => (report_runtime_metrics self batch = (inr tt, batch))
  | QueuePool q =>
      (report_runtime_metrics self batch
       = (inr tt,
          batch ++ [("pool.size", size q);
                    ("pool.open_and_available", checkedin q);
                    ("pool.in_use", checkedout q);
                    ("pool.overflow", Z.max (overflow q) 0)])
       /\ 0 <= Z.max (overflow q) 0)
  end.
Proof.
  unfold report_runtime_metrics.
  destruct (pool (engine self)) as [q|class_name]; [|reflexivity].
  split; [|lia].
  unfold bind, gauge_replace, modify. simpl.
  rewrite <- !app_assoc. reflexivity.
Qed.

(** ** The scenarios, run *)

(** Scenario D. *)
Example scenario_D_annotated_statement :
  fst (on_before_execute scenario_factory 0 0%nat "SELECT 1" None None false
         scenario_D_world)
  = inr ("SELECT 1 -- trace:7,span:1001", None).
Proof. vm_compute. reflexivity. Qed.

Example scenario_D_events :
  events (snd (execute scenario_factory 0 0%nat None select_1 scenario_D_world))
  = let sp := Span.mk 1 7 (Some 7) 1001 "users_db.execute" in
    [EvMakeChild scenario_root sp;
     EvSetTag sp "statement" (VStr "SELECT 1");
     EvStart sp;
     EvFinish sp None].
Proof. vm_compute. reflexivity. Qed.

(** Scenario A: a url alone; the engine gets that url and no recycle
    setting. *)
Example scenario_A :
  fst (ref_engine_from_config (<["database.url" := "db://host/db"]> ∅) None
         "database." ∅ [])
  = inr (mkEngine (URL.mk "db" None None (Some "host") None (Some "db") [])
           ∅ (QueuePool (mkQueuePool 5 0 0 (-5))) ∅).
Proof. vm_compute. reflexivity. Qed.

(** Scenario C: a secret name, no url, no store. *)
Example scenario_C :
  fst (ref_engine_from_config
         (<["database.credentials_secret" := "db/creds"]> ∅) None
         "database." ∅ [])
  = inl (ConfigurationError "database.url" "no value specified").
Proof. vm_compute. reflexivity. Qed.

(** The reporter, on the pool of the specification and on a pool below
    its base size. *)
Example report_full_pool :
  report_runtime_metrics scenario_factory []
  = (inr tt, [("pool.size", 10); ("pool.open_and_available", 7);
              ("pool.in_use", 3); ("pool.overflow", 0)]).
Proof. reflexivity. Qed.

Example report_idle_pool :
  report_runtime_metrics idle_pool_factory []
  = (inr tt, [("pool.size", 10); ("pool.open_and_available", 2);
              ("pool.in_use", 1); ("pool.overflow", 0)]).
Proof. reflexivity. Qed.

Example report_null_pool :
  report_runtime_metrics null_pool_factory [] = (inr tt, []).
Proof. reflexivity. Qed.

(** ** The theorems at the scenarios *)

(** C1 at scenario D, with one statement that succeeds and one that
    fails. *)
Lemma one_live_span_per_connection_witness :
  bound scenario_D_world 0
  /\ exists delta,
       events (snd (run scenario_factory 0 0%nat None
                      [select_1; select_1_failing] scenario_D_world))
       = events scenario_D_world ++ delta
       /\ (forall k, length (live (take k delta)) <= 1)%nat
       /\ live delta = []
       /\ length (created delta) = 2%nat.
Proof.
  assert (Hbound : bound scenario_D_world 0).
  { split; [exists (VStr "users_db") | exists scenario_root]; reflexivity. }
  split; [exact Hbound|].
  destruct (one_live_span_per_connection scenario_factory 0 0%nat None
              [select_1; select_1_failing] scenario_D_world)
    as [(delta & Hev & _ & Htake & Hlive & _ & _ & _ & Hbnd) _].
  exists delta. split; [exact Hev|]. split; [exact Htake|].
  split; [exact Hlive|]. exact (proj1 (Hbnd Hbound)).
Defined.

(** C2 at scenario D: the text is [SELECT 1 -- trace:7,span:1001]. *)
Lemma on_before_execute_annotates_witness :
  exists sp w',
    on_before_execute scenario_factory 0 0%nat "SELECT 1" None None false
      scenario_D_world
    = (inr ("SELECT 1 -- trace:7,span:1001", None), w')
    /\ format_d (Span.trace_id sp) = "7"
    /\ format_d (Span.id sp) = "1001"
    /\ Span.name sp = "users_db.execute"
    /\ Span.trace_id sp = Span.trace_id scenario_root
    /\ Span.parent_id sp = Some (Span.id scenario_root)
    /\ Span.obj sp = next_obj scenario_D_world
    /\ events w' = events scenario_D_world
                   ++ [EvMakeChild scenario_root sp;
                       EvSetTag sp "statement" (VStr "SELECT 1");
                       EvStart sp]
    /\ info (conns w' 0) !! "span" = Some (VSpan sp).
Proof.
  destruct (on_before_execute_annotates scenario_factory scenario_factory 0
              0%nat "SELECT 1" None None false scenario_D_world "users_db"
              scenario_root eq_refl)
    as (sp & w' & Hrun & _ & _ & _ & _ & Hname & Htrace & Hparent & Hid
        & Hobj & Hevents & Hslot).
  assert (Htext :
    "SELECT 1" +:+ " -- trace:" +:+ format_d (Span.trace_id sp)
               +:+ ",span:" +:+ format_d (Span.id sp)
    = "SELECT 1 -- trace:7,span:1001").
  { rewrite Htrace, Hid. vm_compute. reflexivity. }
  rewrite Htext in Hrun.
  exists sp, w'. split; [exact Hrun|].
  split; [rewrite Htrace; vm_compute; reflexivity|].
  split; [rewrite Hid; vm_compute; reflexivity|].
  split; [exact Hname|]. split; [exact Htrace|]. split; [exact Hparent|].
  split; [exact Hobj|]. split; [exact Hevents | exact Hslot].
Defined.



(** C4 at a configuration with a url and a secret name, no store. *)
Lemma engine_from_config_requires_secrets_witness :
  exists (e : Exception) (calls : list Call),
    ref_engine_from_config secret_without_store_config None "database." ∅ []
    = (inl e, calls)
    /\ e = TypeError "'secrets' is required if 'credentials_secret' is set".
Proof.
  destruct (engine_from_config_requires_secrets ref_parse ref_make_url
              ref_get_credentials ref_create_engine
              secret_without_store_config "database." ∅ []
              (mkOptions "db://host/db" (Some "db/creds") None))
    as (e & calls & Hrun & _ & Htype).
  - vm_compute. reflexivity.
  - reflexivity.
  - exists e, calls. split; [exact Hrun|].
    apply (Htype eq_refl (URL.mk "db" None None (Some "host") None
                            (Some "db") [])).
    reflexivity.
Defined.

(** The exception of that run is not a [ConfigurationError]. *)
Lemma engine_from_config_no_secrets_not_ConfigurationError :
  fst (ref_engine_from_config secret_without_store_config None "database."
         ∅ [])
  = inl (TypeError "'secrets' is required if 'credentials_secret' is set")
  /\ ~ (exists e,
          fst (ref_engine_from_config secret_without_store_config None
                 "database." ∅ []) = inl e
          /\ exc_class e = "ConfigurationError").
Proof.
  assert (Hrun :
    fst (ref_engine_from_config secret_without_store_config None "database."
           ∅ [])
    = inl (TypeError "'secrets' is required if 'credentials_secret' is set")).
  { vm_compute. reflexivity. }
  split; [exact Hrun|].
  intros (e & He & Hclass). rewrite Hrun in He. injection He as <-.
  discriminate Hclass.
Qed.

(** C5 at a session whose close succeeds and at one whose close fails. *)
Lemma on_finish_raises_what_close_raises_witness :
  fst (on_finish scenario_observer None ref_world) = inr tt
  /\ fst (on_finish scenario_observer None failing_close_world)
     = inl close_failure.
Proof.
  split.
  - apply (on_finish_raises_what_close_raises scenario_observer None
             ref_world).
    reflexivity.
  - apply (on_finish_raises_what_close_raises scenario_observer None
             failing_close_world).
    reflexivity.
Defined.

(** A close that fails makes [on_finish] raise: it is not true that
    [on_finish] returns normally for every session. *)
Lemma on_finish_propagates_close_failure :
  fst (on_finish scenario_observer None failing_close_world)
  = inl close_failure
  /\ ~ (forall self exc_info w,
          exists w', on_finish self exc_info w = (inr tt, w')).
Proof.
  assert (Hrun : fst (on_finish scenario_observer None failing_close_world)
                 = inl close_failure) by reflexivity.
  split; [exact Hrun|].
  intros Hnever.
  destruct (Hnever scenario_observer None failing_close_world) as [w' Hw'].
  rewrite Hw' in Hrun. discriminate Hrun.
Qed.

(** C7 at a connection that was not drawn from a handle of the factory. *)
Lemma on_before_execute_unbound_raises_witness :
  exists key,
    (key = "context_name" \/ key = "server_span")
    /\ _execution_options (conns ref_world 0) !! key = None
    /\ on_before_execute scenario_factory 0 0%nat "SELECT 1" None None false
         ref_world
       = (inl (KeyError key), ref_world).
Proof.
  apply (on_before_execute_unbound_raises scenario_factory 0 0%nat "SELECT 1"
           None None false ref_world).
  left. reflexivity.
Defined.

(** C9 at scenario B. *)
Lemma engine_from_config_substitutes_credentials_witness :
  fst (ref_engine_from_config scenario_B_config (Some scenario_B_secrets)
         "database." ∅ [])
  = inr (mkEngine
           (URL.mk "db" (Some "svc") (Some "s3cr3t") (Some "host") None
              (Some "db") [])
           ∅ (QueuePool (mkQueuePool 5 0 0 (-5))) ∅).
Proof.
  unfold ref_engine_from_config.
  rewrite (engine_from_config_substitutes_credentials ref_parse ref_make_url
             ref_get_credentials ref_create_engine scenario_B_config
             scenario_B_secrets "database." ∅ []
             (mkOptions "db://user:pass@host/db" (Some "db/creds") None)
             "db/creds"
             (URL.mk "db" (Some "user") (Some "pass") (Some "host") None
                (Some "db") [])
             (CredentialSecret.mk "svc" "s3cr3t")).
  - reflexivity.
  - reflexivity.
  - vm_compute. reflexivity.
  - reflexivity.
  - discriminate.
  - reflexivity.
  - reflexivity.
Defined.

(** C10 at the prefix [database], which lacks the dot. *)
Lemma engine_from_config_asserts_dotted_prefix_witness :
  endswith "database" "." = false
  /\ ref_engine_from_config scenario_B_config (Some scenario_B_secrets)
       "database" ∅ []
     = (inl AssertionError, []).
Proof.
  split; [reflexivity|].
  apply (engine_from_config_asserts_dotted_prefix ref_parse ref_make_url
           ref_get_credentials ref_create_engine).
  reflexivity.
Defined.

(** ** More on the pool configurator *)

Lemma setdefault_lookup_ne {V} (key other : string) (value : V)
    (d : gmap string V) :
  other <> key -> setdefault key value d !! other = d !! other.
Proof.
  intros Hne. unfold setdefault.
  destruct (d !! key); [reflexivity|]. now apply lookup_insert_ne.
Qed.

Lemma setdefault_lookup_eq {V} (key : string) (value : V)
    (d : gmap string V) :
  setdefault key value d !! key
  = match d !! key with
    | Some given => Some given
    | None => Some value
    end.
Proof.
  unfold setdefault. destruct (d !! key) eqn:Hd; [exact Hd|].
  apply lookup_insert_eq.
Qed.

Section PoolConfiguratorMore.

Context {SecretsStore : Type}.
Variable parse : string -> RawConfig -> Result Options.
Variable make_url : string -> Result URL.t.
Variable get_credentials : SecretsStore -> string -> Result CredentialSecret.t.
Variable create_engine : URL.t -> gmap string PyVal -> Result Engine.

(** X1.  When the configuration names no secret ([credentials_secret]
    absent or empty), the engine is created from the url exactly as it was
    parsed, credentials included, and the secrets store is not consulted,
    whether one was given or not. *)
Theorem engine_from_config_without_secret
    (app_config : RawConfig) (secrets : option SecretsStore)
    (prefix : string) (kwargs : gmap string PyVal) (log : list Call)
    (options : Options) (u : URL.t) :
  endswith prefix "." = true ->
  parse (drop_last prefix) app_config = inr options ->
  truthy (credentials_secret options) = false ->
  make_url (url options) = inr u ->
  let kwargs' :=
    match pool_recycle options with
    | Some seconds => setdefault "pool_recycle" (VInt seconds) kwargs
    | None => kwargs
    end in
  engine_from_config parse make_url get_credentials create_engine
    app_config secrets prefix kwargs log
  = (create_engine u kwargs',
     log ++ [CallParse (drop_last prefix) app_config;
             CallMakeUrl (url options);
             CallCreateEngine u kwargs']).
Proof.
  intros Hprefix Hparse Hunset Hurl kwargs'.
  unfold engine_from_config, bind, assert_.
  rewrite Hprefix. simpl. rewrite Hparse, Hurl. simpl.
  destruct (credentials_secret options) as [secret_name|].
  - simpl in Hunset. simpl. rewrite Hunset. simpl.
    unfold call, bind, modify, lift. simpl.
    rewrite <- !app_assoc. reflexivity.
  - simpl. unfold call, bind, modify, lift. simpl.
    rewrite <- !app_assoc. reflexivity.
Qed.

(** X2.  The keyword arguments that reach the engine constructor are the
    caller's, with one possible addition: under every key other than
    [pool_recycle] they hold what the caller gave, and under
    [pool_recycle] they hold the caller's value when the caller gave one
    (whatever it is), else the configured value, else nothing. *)
Theorem engine_from_config_pool_recycle
    (app_config : RawConfig) (secrets : option SecretsStore)
    (prefix : string) (kwargs : gmap string PyVal) (log : list Call)
    (options : Options) :
  parse (drop_last prefix) app_config = inr options ->
  exists r calls,
    engine_from_config parse make_url get_credentials create_engine
      app_config secrets prefix kwargs log
    = (r, log ++ calls)
    /\ forall u kw,
         CallCreateEngine u kw ∈ calls ->
         (forall key, key <> "pool_recycle" -> kw !! key = kwargs !! key)
         /\ kw !! "pool_recycle"
            = match kwargs !! "pool_recycle" with
              | Some given => Some given
              | None => VInt <$> pool_recycle options
              end.
Proof.
  intros Hparse.
  assert (Hmerge :
    forall kw,
      kw = match pool_recycle options with
           | Some seconds => setdefault "pool_recycle" (VInt seconds) kwargs
           | None => kwargs
           end ->
      (forall key, key <> "pool_recycle" -> kw !! key = kwargs !! key)
      /\ kw !! "pool_recycle"
         = match kwargs !! "pool_recycle" with
           | Some given => Some given
           | None => VInt <$> pool_recycle options
           end).
  { intros kw ->. destruct (pool_recycle options) as [seconds|]; simpl.
    - split; [intros key Hkey; now apply setdefault_lookup_ne|].
      apply setdefault_lookup_eq.
    - split; [reflexivity|]. now destruct (kwargs !! "pool_recycle"). }
  assert (Hin :
    forall (pre : list Call) u0 kw0 u kw,
      (forall c, c ∈ pre -> match c with
                            | CallCreateEngine _ _ => False
                            | _ => True
                            end) ->
      CallCreateEngine u kw ∈ pre ++ [CallCreateEngine u0 kw0] ->
      kw = kw0).
  { intros pre u0 kw0 u kw Hpre Hc. apply elem_of_app in Hc as [Hc|Hc].
    - destruct (Hpre _ Hc).
    - apply list_elem_of_singleton in Hc. now injection Hc. }
  unfold engine_from_config, bind, assert_.
  destruct (endswith prefix "."); simpl.
  2:{ exists (inl AssertionError), []. rewrite app_nil_r.
      split; [reflexivity|]. intros u kw Hc. inversion Hc. }
  rewrite Hparse.
  destruct (make_url (url options)) as [e|u0]; simpl.
  { eexists _, [_; _]. rewrite <- app_assoc. split; [reflexivity|].
    intros u kw Hc.
    repeat (apply elem_of_cons in Hc as [Hc|Hc]; [discriminate Hc|]).
    inversion Hc. }
  assert (Hfinal :
    forall (pre : list Call) u1 l,
      (forall c, c ∈ pre -> match c with
                            | CallCreateEngine _ _ => False
                            | _ => True
                            end) ->
      l = log ++ pre ->
      exists r calls,
        call (CallCreateEngine u1
                match pool_recycle options with
                | Some seconds =>
                    setdefault "pool_recycle" (VInt seconds) kwargs
                | None => kwargs
                end)
             (create_engine u1
                match pool_recycle options with
                | Some seconds =>
                    setdefault "pool_recycle" (VInt seconds) kwargs
                | None => kwargs
                end) l
        = (r, log ++ calls)
        /\ forall u kw,
             CallCreateEngine u kw ∈ calls ->
             (forall key, key <> "pool_recycle" -> kw !! key = kwargs !! key)
             /\ kw !! "pool_recycle"
                = match kwargs !! "pool_recycle" with
                  | Some given => Some given
                  | None => VInt <$> pool_recycle options
                  end).
  { intros pre u1 l Hpre ->. eexists _, (pre ++ [_]).
    rewrite call_run, <- app_assoc. split; [reflexivity|].
    intros u kw Hc. apply Hmerge. exact (Hin _ _ _ _ _ Hpre Hc). }
  assert (Hpre2 :
    forall c, c ∈ [CallParse (drop_last prefix) app_config;
                   CallMakeUrl (url options)] ->
              match c with CallCreateEngine _ _ => False | _ => True end).
  { intros c Hc.
    repeat (apply elem_of_cons in Hc as [->|Hc]; [exact I|]). inversion Hc. }
  destruct (credentials_secret options) as [secret_name|]; simpl.
  - destruct (String.eqb secret_name ""); simpl.
    + apply (Hfinal _ _ _ Hpre2). now rewrite <- app_assoc.
    + destruct secrets as [store|]; simpl.
      * destruct (get_credentials store secret_name) as [e|credentials];
          simpl.
        { eexists _, [_; _; _]. rewrite <- !app_assoc.
          split; [reflexivity|]. intros u kw Hc.
          repeat (apply elem_of_cons in Hc as [Hc|Hc]; [discriminate Hc|]).
          inversion Hc. }
        apply (Hfinal [CallParse (drop_last prefix) app_config;
                       CallMakeUrl (url options);
                       CallGetCredentials secret_name]).
        { intros c Hc.
          repeat (apply elem_of_cons in Hc as [->|Hc]; [exact I|]).
          inversion Hc. }
        now rewrite <- !app_assoc.
      * eexists _, [_; _]. rewrite <- app_assoc. split; [reflexivity|].
        intros u kw Hc.
        repeat (apply elem_of_cons in Hc as [Hc|Hc]; [discriminate Hc|]).
        inversion Hc.
  - apply (Hfinal _ _ _ Hpre2). now rewrite <- app_assoc.
Qed.

(** X3.  With a dotted prefix, [engine_from_config] raises the exception
    of the first collaborator that fails and calls none after it: a
    configuration that does not parse stops it before the url is parsed; a
    url that does not parse stops it before the secrets store is
    consulted; a secret that cannot be read stops it before an engine is
    created. *)
Theorem engine_from_config_first_failure
    (app_config : RawConfig) (secrets : option SecretsStore)
    (prefix : string) (kwargs : gmap string PyVal) (log : list Call) :
  endswith prefix "." = true ->
  (forall e,
     parse (drop_last prefix) app_config = inl e ->
     engine_from_config parse make_url get_credentials create_engine
       app_config secrets prefix kwargs log
     = (inl e, log ++ [CallParse (drop_last prefix) app_config]))
  /\ (forall options e,
        parse (drop_last prefix) app_config = inr options ->
        make_url (url options) = inl e ->
        engine_from_config parse make_url get_credentials create_engine
          app_config secrets prefix kwargs log
        = (inl e, log ++ [CallParse (drop_last prefix) app_config;
                          CallMakeUrl (url options)]))
  /\ (forall options u store secret_name e,
        parse (drop_last prefix) app_config = inr options ->
        make_url (url options) = inr u ->
        credentials_secret options = Some secret_name ->
        secret_name <> "" ->
        secrets = Some store ->
        get_credentials store secret_name = inl e ->
        engine_from_config parse make_url get_credentials create_engine
          app_config secrets prefix kwargs log
        = (inl e, log ++ [CallParse (drop_last prefix) app_config;
                          CallMakeUrl (url options);
                          CallGetCredentials secret_name])).
Proof.
  intros Hprefix. unfold engine_from_config, bind, assert_.
  rewrite Hprefix. simpl. split; [|split].
  - intros e Hparse. rewrite Hparse. reflexivity.
  - intros options e Hparse Hurl. rewrite Hparse, Hurl. simpl.
    rewrite <- app_assoc. reflexivity.
  - intros options u store secret_name e Hparse Hurl Hsecret Hne -> Hcreds.
    rewrite Hparse, Hurl. simpl. rewrite Hsecret. unfold truthy.
    destruct (String.eqb_spec secret_name "") as [Heq|_]; [contradiction|].
    simpl. rewrite Hcreds. simpl. rewrite <- !app_assoc. reflexivity.
Qed.

(** X4.  [SQLAlchemySession.parse] never trips the assertion on the
    prefix: whatever the key path, its first call is the parse of the
    configuration under that very key path.  When it returns a factory,
    the factory was made from the engine that the engine constructor
    returned in the last call. *)
Theorem SQLAlchemySession_parse_builds_factory
    (self : SQLAlchemySession) (key_path : string) (raw_config : RawConfig)
    (log : list Call) :
  exists r rest,
    SQLAlchemySession_parse parse make_url get_credentials create_engine
      self key_path raw_config log
    = (r, log ++ CallParse key_path raw_config :: rest)
    /\ forall factory,
         r = inr factory ->
         exists middle u kw built,
           rest = middle ++ [CallCreateEngine u kw]
           /\ create_engine u kw = inr built
           /\ factory = new_factory built.
Proof.
  unfold SQLAlchemySession_parse, engine_from_config, bind, assert_.
  rewrite endswith_app, drop_last_dot. simpl.
  destruct (parse key_path raw_config) as [e|options]; simpl.
  { eexists _, []. split; [reflexivity | discriminate]. }
  destruct (make_url (url options)) as [e|u]; simpl.
  { eexists _, [_]. rewrite <- app_assoc. split; [reflexivity|discriminate]. }
  destruct (credentials_secret options) as [secret_name|]; simpl.
  - destruct (String.eqb secret_name ""); simpl.
    + destruct (create_engine _ _) as [e|built] eqn:Hbuilt; simpl;
        eexists _, _; rewrite <- !app_assoc; simpl;
        (split; [reflexivity|]); [discriminate|].
      intros factory Hf. injection Hf as <-.
      eexists [CallMakeUrl (url options)], _, _, built.
      split; [reflexivity|]. split; [exact Hbuilt | reflexivity].
    + destruct (secrets self) as [store|]; simpl.
      * destruct (get_credentials store secret_name) as [e|credentials];
          simpl.
        { eexists _, [_; _]. rewrite <- !app_assoc.
          split; [reflexivity | discriminate]. }
        destruct (create_engine _ _) as [e|built] eqn:Hbuilt; simpl;
          eexists _, _; rewrite <- !app_assoc; simpl;
          (split; [reflexivity|]); [discriminate|].
        intros factory Hf. injection Hf as <-.
        eexists [CallMakeUrl (url options); CallGetCredentials secret_name],
          _, _, built.
        split; [reflexivity|]. split; [exact Hbuilt | reflexivity].
      * eexists _, [_]. rewrite <- app_assoc.
        split; [reflexivity | discriminate].
  - destruct (create_engine _ _) as [e|built] eqn:Hbuilt; simpl;
      eexists _, _; rewrite <- !app_assoc; simpl;
      (split; [reflexivity|]); [discriminate|].
    intros factory Hf. injection Hf as <-.
    eexists [CallMakeUrl (url options)], _, _, built.
    split; [reflexivity|]. split; [exact Hbuilt | reflexivity].
Qed.

End PoolConfiguratorMore.

(** ** More on the handle factory *)

Lemma execution_options_none (e : Engine) : execution_options e ∅ = e.
Proof.
  unfold execution_options. rewrite (left_id_L ∅ (∪)). now destruct e.
Qed.

(** X5.  The handle made for a name and a span is the factory's engine
    under two more options: url, keyword arguments and pool are those of
    the factory's engine; [context_name] and [server_span] hold the name
    and the span, replacing whatever the engine held under these keys;
    every other option is kept. *)
Theorem make_object_for_context_binds
    (self : SQLAlchemyEngineContextFactory) (name : string) (span : Span.t) :
  let handle := make_object_for_context self name span in
  engine_url handle = engine_url (engine self)
  /\ engine_kwargs handle = engine_kwargs (engine self)
  /\ pool handle = pool (engine self)
  /\ engine_options handle !! "context_name" = Some (VStr name)
  /\ engine_options handle !! "server_span" = Some (VSpan span)
  /\ (forall key,
        key <> "context_name" -> key <> "server_span" ->
        engine_options handle !! key = engine_options (engine self) !! key).
Proof.
  simpl. split; [reflexivity|]. split; [reflexivity|]. split; [reflexivity|].
  unfold make_object_for_context, execution_options. simpl.
  split; [|split].
  - apply lookup_union_Some_l, lookup_insert_eq.
  - apply lookup_union_Some_l. rewrite lookup_insert_ne by discriminate.
    apply lookup_insert_eq.
  - intros key Hname Hspan. apply lookup_union_r.
    rewrite !lookup_insert_ne by congruence. apply lookup_empty.
Qed.

(** X6.  From a handle to a finished span: on a pooled connection drawn
    from the handle that a factory makes for a name and a root span
    (whatever options its engine carried, a binding of an earlier request
    included, and whatever the connection kept in [info] from earlier
    use), a statement attempt gives the caller what the driver gave for
    the statement annotated with the ids of a child of the root named
    after that name, both ids written as their decimal numerals; it makes
    the four calls of that span, with the error the driver raised when it
    raised one; and it leaves [info] as it was but for the slot [span],
    which holds [None]. *)
Theorem statement_through_handle
    (factory self : SQLAlchemyEngineContextFactory) (name : string)
    (root : Span.t) (conn : nat) (cursor : Cursor)
    (context : option ExecutionContext) (st : Statement) (w : World) :
  let handle := make_object_for_context factory name root in
  let w0 := connect handle conn w in
  let sp :=
    Span.mk (next_obj w) (Span.trace_id root) (Some (Span.id root))
      (span_ids w (next_obj w)) (name +:+ ".execute") in
  exists trace_text span_text,
    decimal_of (Span.trace_id root) trace_text
    /\ decimal_of (span_ids w (next_obj w)) span_text
    /\ fst (execute self conn cursor context st w0)
       = outcome_result st
           (stmt_text st +:+ " -- trace:" +:+ trace_text
                         +:+ ",span:" +:+ span_text,
            stmt_parameters st)
    /\ events (snd (execute self conn cursor context st w0))
       = events w ++ [EvMakeChild root sp;
                      EvSetTag sp "statement" (VStr (stmt_text st));
                      EvStart sp;
                      EvFinish sp (outcome_exc_info st)]
    /\ info (conns (snd (execute self conn cursor context st w0)) conn)
       = <["span" := VNone]> (info (conns w conn)).
Proof.
  intros handle w0 sp.
  destruct (handle_options factory name root) as [Hname Hspan].
  assert (Hopts : _execution_options (conns w0 conn) = engine_options handle).
  { unfold w0, connect. simpl. now rewrite Nat.eqb_refl. }
  unfold handle in Hopts. rewrite <- Hopts in Hname, Hspan.
  exists (format_d (Span.trace_id root)),
         (format_d (span_ids w (next_obj w))).
  split; [apply format_d_decimal|]. split; [apply format_d_decimal|].
  rewrite (execute_ok self conn cursor context st w0 _ _ Hname Hspan).
  simpl. rewrite Nat.eqb_refl. simpl. rewrite <- app_assoc.
  split; [reflexivity|]. split; [reflexivity|]. apply insert_insert_eq.
Qed.

(** ** More on the query execution interceptor *)

(** X7.  When [server_span] is present in the execution options but is
    not a span ([None], a number, a string), [on_before_execute] raises
    the [AttributeError] of the missing method [make_child] and leaves the
    world as it found it: no span, no call, the slot untouched. *)
Theorem on_before_execute_server_span_not_a_span
    (self : SQLAlchemyEngineContextFactory) (conn : nat) (cursor : Cursor)
    (statement : string) (parameters : Parameters)
    (context : option ExecutionContext) (executemany : bool) (w : World)
    (context_name server_span : PyVal) :
  _execution_options (conns w conn) !! "context_name" = Some context_name ->
  _execution_options (conns w conn) !! "server_span" = Some server_span ->
  (forall sp, server_span <> VSpan sp) ->
  on_before_execute self conn cursor statement parameters context
    executemany w
  = (inl (AttributeError
            ("'" +:+ type_name server_span
                 +:+ "' object has no attribute 'make_child'")),
     w).
Proof.
  intros Hname Hspan Hnot.
  unfold on_before_execute, bind, gets, getitem. simpl.
  rewrite Hname, Hspan. simpl.
  destruct server_span as [|z|s|sp]; try reflexivity.
  destruct (Hnot sp eq_refl).
Qed.

(** X8.  On a connection whose [info] has no [span] entry (no statement
    has begun on it), [on_after_execute] and [on_error] raise
    [KeyError] for [span] and leave the world as they found it; the
    exception that [on_error] was called for is not the one that comes
    out. *)
Theorem finish_hooks_without_slot
    (self : SQLAlchemyEngineContextFactory) (conn : nat) (cursor : Cursor)
    (statement : string) (parameters : Parameters)
    (context : option ExecutionContext) (executemany : bool)
    (e : Exception) (w : World) :
  info (conns w conn) !! "span" = None ->
  on_after_execute self conn cursor statement parameters context
    executemany w = (inl (KeyError "span"), w)
  /\ on_error self (mkExceptionContext e conn) w = (inl (KeyError "span"), w).
Proof.
  intros Hslot. unfold on_after_execute, on_error, bind, gets, getitem.
  simpl. rewrite Hslot. split; reflexivity.
Qed.

(** X9.  Once a statement attempt on a bound connection is over, a
    further [on_after_execute] or [on_error] on that connection finishes
    nothing: the slot holds [None], the hook raises the [AttributeError]
    of the missing method [finish], and the world stays as it was.  A span
    is not finished a second time by a repeated event. *)
Theorem finish_hooks_after_statement_is_over
    (self : SQLAlchemyEngineContextFactory) (conn : nat) (cursor : Cursor)
    (context : option ExecutionContext) (st : Statement)
    (statement : string) (parameters : Parameters) (executemany : bool)
    (e : Exception) (w : World) :
  bound w conn ->
  let w' := snd (execute self conn cursor context st w) in
  on_after_execute self conn cursor statement parameters context
    executemany w'
  = (inl (AttributeError "'NoneType' object has no attribute 'finish'"), w')
  /\ on_error self (mkExceptionContext e conn) w'
     = (inl (AttributeError "'NoneType' object has no attribute 'finish'"),
        w').
Proof.
  intros [[context_name Hname] [server_span Hspan]] w'.
  assert (Hslot : info (conns w' conn) !! "span" = Some VNone).
  { unfold w'.
    rewrite (execute_ok self conn cursor context st w _ _ Hname Hspan).
    apply after_finish_slot. }
  unfold on_after_execute, on_error, bind, gets, getitem. simpl.
  rewrite Hslot. split; reflexivity.
Qed.

Lemma before_frame
    (self : SQLAlchemyEngineContextFactory) (conn : nat) (cursor : Cursor)
    (statement : string) (parameters : Parameters)
    (context : option ExecutionContext) (executemany : bool) (w : World) :
  let w' := snd (on_before_execute self conn cursor statement parameters
                   context executemany w) in
  (forall other, other <> conn -> conns w' other = conns w other)
  /\ _execution_options (conns w' conn) = _execution_options (conns w conn)
  /\ (forall key, key <> "span" ->
        info (conns w' conn) !! key = info (conns w conn) !! key).
Proof.
  destruct (_execution_options (conns w conn) !! "context_name")
    as [context_name|] eqn:Hname.
  2:{ unfold on_before_execute, bind, gets, getitem. simpl.
      rewrite Hname. simpl. auto. }
  destruct (_execution_options (conns w conn) !! "server_span")
    as [server_span|] eqn:Hspan.
  2:{ unfold on_before_execute, bind, gets, getitem. simpl.
      rewrite Hname, Hspan. simpl. auto. }
  destruct server_span as [|z|s|server_span].
  4:{ rewrite (on_before_execute_ok _ _ _ _ _ _ _ _ _ _ Hname Hspan). simpl.
      rewrite Nat.eqb_refl. simpl. split; [|split; [reflexivity|]].
      - intros other Hother. apply Nat.eqb_neq in Hother. now rewrite Hother.
      - intros key Hkey. now apply lookup_insert_ne. }
  all: unfold on_before_execute, bind, gets, getitem; simpl;
    rewrite Hname, Hspan; simpl; auto.
Qed.

Lemma finish_frame (conn : nat) (exc_info : option ExcInfo) (w : World) :
  let w' :=
    snd ((c <- gets (fun w => conns w conn) ;;
          span <- getitem (info c) "span" ;;
          py_finish span exc_info ;;
          setitem_info conn "span" VNone) w) in
  (forall other, other <> conn -> conns w' other = conns w other)
  /\ _execution_options (conns w' conn) = _execution_options (conns w conn)
  /\ (forall key, key <> "span" ->
        info (conns w' conn) !! key = info (conns w conn) !! key).
Proof.
  unfold bind, gets, getitem. simpl.
  destruct (info (conns w conn) !! "span") as [[|z|s|sp]|]; simpl; auto.
  rewrite Nat.eqb_refl. simpl. split; [|split; [reflexivity|]].
  - intros other Hother. apply Nat.eqb_neq in Hother. now rewrite Hother.
  - intros key Hkey. now apply lookup_insert_ne.
Qed.

(** X10.  Each of the three hooks, whether it returns or raises, writes
    nothing but the [span] entry of the [info] of the connection it was
    called for: every other connection, the execution options of its own
    connection and every other entry of its [info] are as before. *)
Theorem hooks_write_only_their_slot
    (self : SQLAlchemyEngineContextFactory) (conn : nat) (cursor : Cursor)
    (statement : string) (parameters : Parameters)
    (context : option ExecutionContext) (executemany : bool)
    (e : Exception) (w w' : World) :
  w' = snd (on_before_execute self conn cursor statement parameters context
              executemany w)
  \/ w' = snd (on_after_execute self conn cursor statement parameters
                 context executemany w)
  \/ w' = snd (on_error self (mkExceptionContext e conn) w) ->
  (forall other, other <> conn -> conns w' other = conns w other)
  /\ _execution_options (conns w' conn) = _execution_options (conns w conn)
  /\ (forall key, key <> "span" ->
        info (conns w' conn) !! key = info (conns w conn) !! key).
Proof.
  intros [->|[->| ->]].
  - apply before_frame.
  - apply (finish_frame conn None w).
  - apply (finish_frame conn (Some (type_of e, e, None)) w).
Qed.

(** X11.  The slot holds one span, so statements must not overlap on a
    connection: if [on_before_execute] runs a second time before the
    first statement was finished, the slot is overwritten, the one
    [on_after_execute] that follows finishes the second span, and the
    first span stays live; the next [on_after_execute] finds [None] in the
    slot and raises. *)
Theorem overlapping_statements_leak_the_first_span
    (self : SQLAlchemyEngineContextFactory) (conn : nat) (cursor : Cursor)
    (context : option ExecutionContext) (first second : Statement)
    (w : World) :
  bound w conn ->
  let w1 := snd (on_before_execute self conn cursor (stmt_text first)
                   (stmt_parameters first) context (stmt_executemany first)
                   w) in
  let w2 := snd (on_before_execute self conn cursor (stmt_text second)
                   (stmt_parameters second) context
                   (stmt_executemany second) w1) in
  let w3 := snd (on_after_execute self conn cursor (stmt_text second)
                   (stmt_parameters second) context
                   (stmt_executemany second) w2) in
  exists sp1 sp2 delta,
    slot_span w1 conn = Some sp1
    /\ slot_span w2 conn = Some sp2
    /\ Span.obj sp1 <> Span.obj sp2
    /\ events w3 = events w ++ delta
    /\ count_if (is_finish_of (Span.obj sp2)) delta = 1%nat
    /\ count_if (is_finish_of (Span.obj sp1)) delta = 0%nat
    /\ live delta = [Span.obj sp1]
    /\ fst (on_after_execute self conn cursor (stmt_text first)
              (stmt_parameters first) context (stmt_executemany first) w3)
       = inl (AttributeError "'NoneType' object has no attribute 'finish'").
Proof.
  intros [[context_name Hname] [server_span Hspan]] w1 w2 w3.
  subst w3 w2 w1.
  rewrite (on_before_execute_ok self conn cursor (stmt_text first)
             (stmt_parameters first) context (stmt_executemany first) w
             _ _ Hname Hspan).
  cbn [snd].
  set (sp1 := Span.mk (next_obj w) (Span.trace_id server_span)
                (Some (Span.id server_span)) (span_ids w (next_obj w))
                (str_of (obj_repr w) context_name +:+ ".execute")).
  set (wa := after_before w conn sp1 (stmt_text first) server_span).
  assert (Hname1 : _execution_options (conns wa conn) !! "context_name"
                   = Some context_name).
  { unfold wa. simpl. now rewrite Nat.eqb_refl. }
  assert (Hspan1 : _execution_options (conns wa conn) !! "server_span"
                   = Some (VSpan server_span)).
  { unfold wa. simpl. now rewrite Nat.eqb_refl. }
  rewrite (on_before_execute_ok self conn cursor (stmt_text second)
             (stmt_parameters second) context (stmt_executemany second)
             wa _ _ Hname1 Hspan1).
  cbn [snd].
  set (sp2 := Span.mk (next_obj wa) (Span.trace_id server_span)
                (Some (Span.id server_span)) (span_ids wa (next_obj wa))
                (str_of (obj_repr wa) context_name +:+ ".execute")).
  set (wb := after_before wa conn sp2 (stmt_text second) server_span).
  assert (Hslot2 : info (conns wb conn) !! "span" = Some (VSpan sp2))
    by apply after_before_slot.
  rewrite (on_after_execute_ok self conn cursor (stmt_text second)
             (stmt_parameters second) context (stmt_executemany second)
             wb sp2 Hslot2).
  cbn [snd].
  exists sp1, sp2,
    [EvMakeChild server_span sp1;
     EvSetTag sp1 "statement" (VStr (stmt_text first));
     EvStart sp1;
     EvMakeChild server_span sp2;
     EvSetTag sp2 "statement" (VStr (stmt_text second));
     EvStart sp2;
     EvFinish sp2 None].
  assert (Hne : (next_obj w =? S (next_obj w))%nat = false)
    by (apply Nat.eqb_neq; lia).
  assert (Hne' : (S (next_obj w) =? next_obj w)%nat = false)
    by (apply Nat.eqb_neq; lia).
  split; [unfold slot_span, wa; rewrite after_before_slot; reflexivity|].
  split; [unfold slot_span; rewrite Hslot2; reflexivity|].
  split; [simpl; lia|].
  split; [simpl; rewrite <- !app_assoc; reflexivity|].
  split; [unfold count_if; cbn -[Nat.eqb];
          rewrite ?Nat.eqb_refl, ?Hne, ?Hne'; reflexivity|].
  split; [unfold count_if; cbn -[Nat.eqb];
          rewrite ?Nat.eqb_refl, ?Hne, ?Hne'; reflexivity|].
  split; [unfold live; cbn -[Nat.eqb];
          rewrite ?Nat.eqb_refl, ?Hne, ?Hne'; cbn -[Nat.eqb];
          rewrite ?Nat.eqb_refl, ?Hne, ?Hne'; reflexivity|].
  unfold on_after_execute, bind, gets, getitem.
  cbn [fst]. simpl. rewrite Nat.eqb_refl. simpl.
  rewrite lookup_insert_eq. reflexivity.
Qed.

(** *** Interleaved statements *)

Lemma on_before_execute_cases
    (self : SQLAlchemyEngineContextFactory) (conn : nat) (cursor : Cursor)
    (statement : string) (parameters : Parameters)
    (context : option ExecutionContext) (executemany : bool) (w : World) :
  (exists e,
     on_before_execute self conn cursor statement parameters context
       executemany w = (inl e, w))
  \/ (exists sent sp parent,
        on_before_execute self conn cursor statement parameters context
          executemany w
        = (inr sent, after_before w conn sp statement parent)
        /\ Span.obj sp = next_obj w).
Proof.
  destruct (_execution_options (conns w conn) !! "context_name")
    as [context_name|] eqn:Hname.
  2:{ left. unfold on_before_execute, bind, gets, getitem. simpl.
      rewrite Hname. simpl. eauto. }
  destruct (_execution_options (conns w conn) !! "server_span")
    as [server_span|] eqn:Hspan.
  2:{ left. unfold on_before_execute, bind, gets, getitem. simpl.
      rewrite Hname, Hspan. simpl. eauto. }
  destruct server_span as [|z|s|server_span].
  4:{ right. eexists _, _, _. split.
      - apply (on_before_execute_ok _ _ _ _ _ _ _ _ _ _ Hname Hspan).
      - reflexivity. }
  all: left; unfold on_before_execute, bind, gets, getitem; simpl;
    rewrite Hname, Hspan; simpl; eauto.
Qed.

Lemma slot_span_Some (w : World) (conn : nat) (sp : Span.t) :
  slot_span w conn = Some sp ->
  info (conns w conn) !! "span" = Some (VSpan sp).
Proof.
  unfold slot_span.
  destruct (info (conns w conn) !! "span") as [[|z|s|sp']|];
    try discriminate.
  now intros [= ->].
Qed.

Lemma slot_span_after_before (w : World) (conn other : nat) (sp : Span.t)
    (statement : string) (parent : Span.t) :
  slot_span (after_before w conn sp statement parent) other
  = if Nat.eqb other conn then Some sp else slot_span w other.
Proof.
  unfold slot_span, after_before. simpl.
  destruct (Nat.eqb other conn); [|reflexivity].
  simpl. now rewrite lookup_insert_eq.
Qed.

Lemma slot_span_after_finish (w : World) (conn other : nat) (sp : Span.t)
    (exc_info : option ExcInfo) :
  slot_span (after_finish w conn sp exc_info) other
  = if Nat.eqb other conn then None else slot_span w other.
Proof.
  unfold slot_span, after_finish. simpl.
  destruct (Nat.eqb other conn); [|reflexivity].
  simpl. now rewrite lookup_insert_eq.
Qed.

Lemma filter_out_absent (o : nat) (l : list nat) :
  ~ In o l -> List.filter (fun x => negb (Nat.eqb x o)) l = l.
Proof.
  induction l as [|a l IH]; intros Hnot; simpl; [reflexivity|].
  destruct (Nat.eqb_spec a o) as [->|Hne]; simpl.
  - destruct Hnot. now left.
  - rewrite IH; [reflexivity|]. intros Hin. apply Hnot. now right.
Qed.

Lemma filter_out_length (o : nat) (l : list nat) :
  List.NoDup l -> In o l ->
  S (length (List.filter (fun x => negb (Nat.eqb x o)) l)) = length l.
Proof.
  induction l as [|a l IH]; intros Hnodup Hin; [destruct Hin|].
  apply List.NoDup_cons_iff in Hnodup as [Hnotin Hnodup]. simpl.
  destruct (Nat.eqb_spec a o) as [->|Hne]; simpl.
  - now rewrite filter_out_absent.
  - destruct Hin as [Heq|Hin]; [congruence|]. now rewrite IH.
Qed.

Lemma live_app (a b : list Event) : live (a ++ b) = live_from (live a) b.
Proof. apply live_from_app. Qed.

Lemma step_action_inv
    (self : SQLAlchemyEngineContextFactory) (cursor : Cursor)
    (context : option ExecutionContext) (a : Action) (w0 : World)
    (state : World * gmap nat (Statement * (string * Parameters))) :
  interleave_inv w0 state ->
  interleave_inv w0 (step_action self cursor context a state).
Proof.
  destruct state as [w pending].
  intros (delta & Hev & Hnodup & Hlt & Hbusy & Hlive & Hinj & Hsize).
  destruct a as [conn st|conn]; simpl.
  - (* Begin *)
    destruct (pending !! conn) as [p|] eqn:Hp.
    { exists delta. repeat (split; [assumption|]). assumption. }
    destruct (on_before_execute_cases self conn cursor (stmt_text st)
                (stmt_parameters st) context (stmt_executemany st) w)
      as [[e He]|(sent & sp & parent & Hok & Hobj)].
    { rewrite He. exists delta. repeat (split; [assumption|]). assumption. }
    rewrite Hok.
    exists (delta ++ [EvMakeChild parent sp;
                      EvSetTag sp "statement" (VStr (stmt_text st));
                      EvStart sp]).
    assert (Hnew : live (delta ++ [EvMakeChild parent sp;
                      EvSetTag sp "statement" (VStr (stmt_text st));
                      EvStart sp]) = live delta ++ [Span.obj sp])
      by (rewrite live_app; reflexivity).
    rewrite Hnew.
    assert (Hfresh : ~ In (Span.obj sp) (live delta)).
    { intros Hin. apply Hlt in Hin. lia. }
    split; [simpl; rewrite Hev, <- app_assoc; reflexivity|].
    split.
    { apply NoDup_ListNoDup, NoDup_app. split; [now apply NoDup_ListNoDup|].
      split; [|apply NoDup_singleton].
      intros o Ho Ho'. apply list_elem_of_In in Ho.
      apply list_elem_of_singleton in Ho'. subst o. contradiction. }
    split.
    { intros o Ho. simpl. apply in_app_or in Ho as [Ho|[<-|[]]].
      - apply Hlt in Ho. lia.
      - lia. }
    split.
    { intros c Hc. rewrite slot_span_after_before.
      destruct (Nat.eqb_spec c conn) as [->|Hne].
      - exists sp. split; [reflexivity|]. apply in_or_app. right. now left.
      - rewrite lookup_insert_ne in Hc by congruence.
        destruct (Hbusy c Hc) as (sp' & Hslot & Hin).
        exists sp'. split; [exact Hslot|]. apply in_or_app. now left. }
    split.
    { intros o Ho. apply in_app_or in Ho as [Ho|[<-|[]]].
      - destruct (Hlive o Ho) as (c & sp' & Hc & Hslot & Hobj').
        assert (Hne : c <> conn).
        { intros ->. rewrite Hp in Hc. now destruct Hc. }
        exists c, sp'. rewrite slot_span_after_before.
        apply Nat.eqb_neq in Hne as Hneb. rewrite Hneb.
        rewrite lookup_insert_ne by congruence. auto.
      - exists conn, sp. rewrite slot_span_after_before, Nat.eqb_refl.
        rewrite lookup_insert_eq. eauto. }
    split.
    2:{ rewrite length_app, (map_size_insert_None _ _ _ Hp). simpl. lia. }
    intros c1 c2 sp1 sp2 Hc1 Hc2.
    rewrite !slot_span_after_before.
    destruct (Nat.eqb_spec c1 conn) as [->|Hne1],
             (Nat.eqb_spec c2 conn) as [->|Hne2]; try reflexivity.
    + intros [= <-] Hslot2 Heq.
      rewrite lookup_insert_ne in Hc2 by congruence.
      destruct (Hbusy c2 Hc2) as (sp' & Hslot' & Hin).
      rewrite Hslot2 in Hslot'. injection Hslot' as <-.
      rewrite <- Heq in Hin. contradiction.
    + intros Hslot1 [= <-] Heq.
      rewrite lookup_insert_ne in Hc1 by congruence.
      destruct (Hbusy c1 Hc1) as (sp' & Hslot' & Hin).
      rewrite Hslot1 in Hslot'. injection Hslot' as <-.
      rewrite Heq in Hin. contradiction.
    + rewrite lookup_insert_ne in Hc1 by congruence.
      rewrite lookup_insert_ne in Hc2 by congruence.
      apply Hinj; assumption.
  - (* End *)
    destruct (pending !! conn) as [[st sent]|] eqn:Hp.
    2:{ exists delta. repeat (split; [assumption|]). assumption. }
    destruct (Hbusy conn) as (sp & Hslot & Hin); [rewrite Hp; eauto|].
    apply slot_span_Some in Hslot as Hinfo.
    set (exc_info := outcome_exc_info st).
    assert (Hfin :
      snd (match stmt_outcome st with
           | Returns =>
               on_after_execute self conn cursor (fst sent) (snd sent)
                 context (stmt_executemany st) w
           | Raises e raised =>
               on_error self (mkExceptionContext e conn) w
           end)
      = after_finish w conn sp exc_info).
    { unfold exc_info, outcome_exc_info.
      destruct (stmt_outcome st) as [|e raised].
      - now rewrite (on_after_execute_ok _ _ _ _ _ _ _ _ sp Hinfo).
      - now rewrite (on_error_ok _ _ _ _ sp Hinfo). }
    rewrite Hfin.
    exists (delta ++ [EvFinish sp exc_info]).
    assert (Hnew : live (delta ++ [EvFinish sp exc_info])
                   = List.filter (fun o => negb (Nat.eqb o (Span.obj sp)))
                       (live delta))
      by (rewrite live_app; reflexivity).
    rewrite Hnew.
    split; [simpl; rewrite Hev, <- app_assoc; reflexivity|].
    split; [now apply List.NoDup_filter|].
    split.
    { intros o Ho. apply filter_In in Ho as [Ho _]. simpl. now apply Hlt. }
    split.
    { intros c Hc.
      assert (Hne : c <> conn).
      { intros ->. rewrite lookup_delete_eq in Hc. now destruct Hc. }
      rewrite lookup_delete_ne in Hc by congruence.
      destruct (Hbusy c Hc) as (sp' & Hslot' & Hin').
      exists sp'. rewrite slot_span_after_finish.
      apply Nat.eqb_neq in Hne as Hneb. rewrite Hneb.
      split; [exact Hslot'|]. apply filter_In. split; [exact Hin'|].
      apply negb_true_iff, Nat.eqb_neq. intros Heq. apply Hne.
      apply (Hinj c conn sp' sp); auto; rewrite Hp; eauto. }
    split.
    { intros o Ho. apply filter_In in Ho as [Ho Hneq].
      apply negb_true_iff, Nat.eqb_neq in Hneq.
      destruct (Hlive o Ho) as (c & sp' & Hc & Hslot' & Hobj').
      assert (Hne : c <> conn).
      { intros ->. rewrite Hslot in Hslot'. injection Hslot' as <-.
        congruence. }
      exists c, sp'. rewrite slot_span_after_finish.
      apply Nat.eqb_neq in Hne as Hneb. rewrite Hneb.
      rewrite lookup_delete_ne by congruence. auto. }
    split.
    2:{ pose proof (filter_out_length _ _ Hnodup Hin) as Hlen.
        assert (Hdel : base.size (delete conn pending)
                       = Init.Nat.pred (base.size pending))
          by (apply map_size_delete_Some; rewrite Hp; eauto).
        rewrite Hdel. lia. }
    intros c1 c2 sp1 sp2 Hc1 Hc2.
    assert (Hne1 : c1 <> conn).
    { intros ->. rewrite lookup_delete_eq in Hc1. now destruct Hc1. }
    assert (Hne2 : c2 <> conn).
    { intros ->. rewrite lookup_delete_eq in Hc2. now destruct Hc2. }
    rewrite lookup_delete_ne in Hc1 by congruence.
    rewrite lookup_delete_ne in Hc2 by congruence.
    rewrite !slot_span_after_finish.
    apply Nat.eqb_neq in Hne1 as ->. apply Nat.eqb_neq in Hne2 as ->.
    apply Hinj; assumption.
Qed.

Lemma interleave_preserves_inv
    (self : SQLAlchemyEngineContextFactory) (cursor : Cursor)
    (context : option ExecutionContext) (acts : list Action) (w0 : World)
    (state : World * gmap nat (Statement * (string * Parameters))) :
  interleave_inv w0 state ->
  interleave_inv w0 (interleave self cursor context acts state).
Proof.
  revert state. induction acts as [|a acts IH]; intros state Hinv; simpl.
  - exact Hinv.
  - apply IH, step_action_inv, Hinv.
Qed.

(** X12.  Statements of several connections, interleaved in any way:
    after any schedule, the spans that are live are exactly the spans in
    the slots of the connections with a pending statement, one span per
    busy connection, different connections holding different spans; so
    there are as many live spans as busy connections, no connection has
    more than one, and none is live when no statement is pending. *)
Theorem interleaved_statements_one_span_per_busy_connection
    (self : SQLAlchemyEngineContextFactory) (cursor : Cursor)
    (context : option ExecutionContext) (acts : list Action) (w : World) :
  let state := interleave self cursor context acts (w, ∅) in
  exists delta,
    events (fst state) = events w ++ delta
    /\ NoDup (live delta)
    /\ length (live delta) = base.size (snd state)
    /\ (forall conn,
          is_Some (snd state !! conn) ->
          exists sp,
            slot_span (fst state) conn = Some sp
            /\ Span.obj sp ∈ live delta)
    /\ (forall o,
          o ∈ live delta ->
          exists conn sp,
            is_Some (snd state !! conn)
            /\ slot_span (fst state) conn = Some sp
            /\ Span.obj sp = o)
    /\ (forall c1 c2 sp1 sp2,
          is_Some (snd state !! c1) -> is_Some (snd state !! c2) ->
          slot_span (fst state) c1 = Some sp1 ->
          slot_span (fst state) c2 = Some sp2 ->
          Span.obj sp1 = Span.obj sp2 -> c1 = c2)
    /\ (snd state = ∅ -> live delta = []).
Proof.
  intros state.
  assert (Hinit : interleave_inv w (w, ∅)).
  { exists []. rewrite app_nil_r. split; [reflexivity|].
    split; [constructor|]. split; [intros o []|].
    split; [intros c Hc; rewrite lookup_empty in Hc; now destruct Hc|].
    split; [intros o []|].
    split; [|reflexivity].
    intros c1 c2 sp1 sp2 Hc1. rewrite lookup_empty in Hc1. now destruct Hc1. }
  pose proof (interleave_preserves_inv self cursor context acts w _ Hinit)
    as Hinv.
  fold state in Hinv. destruct state as [w' pending].
  destruct Hinv as (delta & Hev & Hnodup & Hlt & Hbusy & Hlive & Hinj & Hsize).
  exists delta. simpl.
  split; [exact Hev|]. split; [now apply NoDup_ListNoDup|].
  split; [exact Hsize|]. split.
  { intros conn Hc. destruct (Hbusy conn Hc) as (sp & Hslot & Hin).
    exists sp. split; [exact Hslot | now apply list_elem_of_In]. }
  split.
  { intros o Ho. apply Hlive. now apply list_elem_of_In. }
  split; [exact Hinj|].
  intros ->. rewrite map_size_empty in Hsize.
  now apply length_zero_iff_nil.
Qed.

(** X12 at two connections: a statement begins on the first, a statement
    begins on the second, the first one ends. *)
Lemma interleaved_statements_witness :
  let state :=
    interleave scenario_factory 0%nat None
      [Begin 0 select_1; Begin 1 select_1_failing; End 0]
      (two_connections_world, ∅) in
  exists delta sp,
    events (fst state) = events two_connections_world ++ delta
    /\ slot_span (fst state) 1 = Some sp
    /\ Span.obj sp ∈ live delta
    /\ length (live delta) = 1%nat.
Proof.
  intros state.
  destruct (interleaved_statements_one_span_per_busy_connection
              scenario_factory 0%nat None
              [Begin 0 select_1; Begin 1 select_1_failing; End 0]
              two_connections_world)
    as (delta & Hev & _ & Hlen & Hbusy & _).
  fold state in Hev, Hlen, Hbusy.
  destruct (Hbusy 1%nat) as (sp & Hslot & Hin).
  { vm_compute. eexists. reflexivity. }
  exists delta, sp. split; [exact Hev|]. split; [exact Hslot|].
  split; [exact Hin|]. rewrite Hlen. vm_compute. reflexivity.
Defined.

(** *** The annotated statement *)

Lemma split_at_comma_uint (d : Decimal.uint) (rest : string) :
  split_at_comma (NilEmpty.string_of_uint d +:+ "," +:+ rest)
  = Some (NilEmpty.string_of_uint d, rest).
Proof.
  induction d as [|d IH|d IH|d IH|d IH|d IH|d IH|d IH|d IH|d IH|d IH];
    cbn [NilEmpty.string_of_uint];
    [reflexivity|..];
    rewrite append_cons; cbn [split_at_comma]; rewrite IH; reflexivity.
Qed.

Lemma split_at_comma_format_d (z : Z) (rest : string) :
  split_at_comma (format_d z +:+ "," +:+ rest) = Some (format_d z, rest).
Proof.
  unfold format_d.
  assert (Huint : forall d,
    split_at_comma (NilZero.string_of_uint d +:+ "," +:+ rest)
    = Some (NilZero.string_of_uint d, rest)).
  { intros d. destruct d; try apply split_at_comma_uint. reflexivity. }
  destruct (Z.to_int z) as [d|d]; cbn [NilZero.string_of_int].
  - apply Huint.
  - rewrite append_cons. cbn [split_at_comma]. cbn [String.eqb Ascii.eqb].
    simpl Bool.eqb. cbn iota. rewrite Huint. reflexivity.
Qed.

Lemma format_d_inj (a b : Z) : format_d a = format_d b -> a = b.
Proof.
  intros H. pose proof (format_d_read_back a) as Ha.
  rewrite H, format_d_read_back in Ha. now injection Ha.
Qed.

(** X13.  The comment is unambiguous: when two runs of
    [on_before_execute] on the same statement text return the same
    annotated text, the spans they created carry the same trace id and the
    same span id.  Different ids never give the same annotation. *)
Theorem annotation_determines_ids
    (self self' : SQLAlchemyEngineContextFactory) (conn conn' : nat)
    (cursor cursor' : Cursor) (statement : string)
    (parameters parameters' : Parameters)
    (context context' : option ExecutionContext)
    (executemany executemany' : bool) (w w' w1 w1' : World)
    (text : string) (sent sent' : Parameters) :
  on_before_execute self conn cursor statement parameters context
    executemany w = (inr (text, sent), w1) ->
  on_before_execute self' conn' cursor' statement parameters' context'
    executemany' w' = (inr (text, sent'), w1') ->
  exists sp sp',
    slot_span w1 conn = Some sp
    /\ slot_span w1' conn' = Some sp'
    /\ Span.trace_id sp = Span.trace_id sp'
    /\ Span.id sp = Span.id sp'.
Proof.
  intros Hrun Hrun'.
  destruct (on_before_execute_inv _ _ _ _ _ _ _ _ _ _ Hrun)
    as (cn & root & Hname & Hspan).
  destruct (on_before_execute_inv _ _ _ _ _ _ _ _ _ _ Hrun')
    as (cn' & root' & Hname' & Hspan').
  rewrite (on_before_execute_ok _ _ _ _ _ _ _ _ _ _ Hname Hspan) in Hrun.
  rewrite (on_before_execute_ok _ _ _ _ _ _ _ _ _ _ Hname' Hspan') in Hrun'.
  injection Hrun as Htext _ <-. injection Hrun' as Htext' _ <-.
  eexists _, _.
  split; [unfold slot_span; rewrite after_before_slot; reflexivity|].
  split; [unfold slot_span; rewrite after_before_slot; reflexivity|].
  rewrite <- Htext' in Htext. simpl in Htext.
  apply (inj (String.append statement)) in Htext.
  apply (inj (String.append " -- trace:")) in Htext.
  change (?a +:+ ",span:" +:+ ?b) with (a +:+ "," +:+ "span:" +:+ b)
    in Htext.
  apply (f_equal split_at_comma) in Htext.
  rewrite !split_at_comma_format_d in Htext.
  injection Htext as Htrace Hid.
  rewrite !append_nil_l in Hid.
  cbn [Span.trace_id Span.id].
  split; [now apply format_d_inj | now apply format_d_inj].
Qed.

(** ** More on sessions *)

(** X14.  Every call of the session factory makes a session of its own:
    two calls, for the same request or for different ones, return
    different session objects, each bound to the handle made for its name
    and span, and register one observer each, on the span given, holding
    the session returned.  No session is closed, committed or rolled back
    by making it, and no connection is touched. *)
Theorem session_factory_makes_fresh_sessions
    (self self' : SQLAlchemyEngineContextFactory) (name name' : string)
    (span span' : Span.t) (w : World) :
  let first :=
    SQLAlchemySessionContextFactory.make_object_for_context self name span
      w in
  let second :=
    SQLAlchemySessionContextFactory.make_object_for_context self' name'
      span' (snd first) in
  exists s s',
    fst first = inr s
    /\ fst second = inr s'
    /\ session_obj s <> session_obj s'
    /\ session_bind s = make_object_for_context self name span
    /\ session_bind s' = make_object_for_context self' name' span'
    /\ events (snd second)
       = events w ++ [EvRegister span (mkObserver s);
                      EvRegister span' (mkObserver s')]
    /\ (forall conn, conns (snd second) conn = conns w conn).
Proof.
  intros first second. unfold second, first.
  rewrite session_factory_registers_observer. cbn [snd fst].
  rewrite session_factory_registers_observer. cbn [snd fst].
  eexists _, _. split; [reflexivity|]. split; [reflexivity|].
  split; [simpl; lia|]. split; [reflexivity|]. split; [reflexivity|].
  split; [simpl; rewrite <- app_assoc; reflexivity | reflexivity].
Qed.

(** X15.  The observer that the session factory registers closes the
    session that the factory returned: a finish signal to it, with or
    without error, adds one [close] of that session; and it keeps no
    record of having done so, for a second signal makes a second [close]
    of the same session, whether or not the first one raised. *)
Theorem registered_observer_closes_its_session
    (self : SQLAlchemyEngineContextFactory) (name : string) (span : Span.t)
    (exc_info exc_info' : option ExcInfo) (w : World) :
  let made :=
    SQLAlchemySessionContextFactory.make_object_for_context self name span
      w in
  exists s,
    fst made = inr s
    /\ events (snd made) = events w ++ [EvRegister span (mkObserver s)]
    /\ let once := snd (on_finish (mkObserver s) exc_info (snd made)) in
       let twice := snd (on_finish (mkObserver s) exc_info' once) in
       events once
       = events w ++ [EvRegister span (mkObserver s); EvSessionClose s]
       /\ events twice
          = events w ++ [EvRegister span (mkObserver s); EvSessionClose s;
                         EvSessionClose s].
Proof.
  intros made. unfold made. rewrite session_factory_registers_observer.
  cbn [snd fst]. eexists. split; [reflexivity|]. split; [reflexivity|].
  unfold on_finish. rewrite !close_run. cbn [snd events session].
  rewrite ?close_run. cbn [snd events].
  rewrite <- !app_assoc. split; reflexivity.
Qed.

(** ** More on the runtime metrics reporter *)

Lemma gauge_value_app (name : string) (a b : Batch) :
  gauge_value name (a ++ b)
  = match gauge_value name b with
    | Some v => Some v
    | None => gauge_value name a
    end.
Proof.
  induction a as [|[n v] a IH]; simpl.
  - now destruct (gauge_value name b).
  - rewrite IH. now destruct (gauge_value name b).
Qed.

Lemma gauge_value_cons_ne (name n : string) (v : Z) (rest : Batch) :
  n <> name -> gauge_value name ((n, v) :: rest) = gauge_value name rest.
Proof.
  intros Hne. cbn [gauge_value]. apply String.eqb_neq in Hne. rewrite Hne.
  now destruct (gauge_value name rest).
Qed.

(** X16.  A report replaces, it does not accumulate: after a report on a
    queue pool the value of each of the four gauges is the one of that
    report, whatever the batch held before, an earlier report included;
    and a report on a pool that is not a queue pool leaves the value of
    every gauge as it was. *)
Theorem report_runtime_metrics_replaces
    (self : SQLAlchemyEngineContextFactory) (batch : Batch) :
  let batch' := snd (report_runtime_metrics self batch) in
  match pool (engine self) with
  | QueuePool q =>
      gauge_value "pool.size" batch' = Some (size q)
      /\ gauge_value "pool.open_and_available" batch' = Some (checkedin q)
      /\ gauge_value "pool.in_use" batch' = Some (checkedout q)
      /\ gauge_value "pool.overflow" batch' = Some (Z.max (overflow q) 0)
      /\ (forall name,
            name <> "pool.size" -> name <> "pool.open_and_available" ->
            name <> "pool.in_use" -> name <> "pool.overflow" ->
            gauge_value name batch' = gauge_value name batch)
  | OtherPool _ =>
      forall name, gauge_value name batch' = gauge_value name batch
  end.
Proof.
  intros batch'. unfold batch', report_runtime_metrics.
  destruct (pool (engine self)) as [q|class_name]; [|reflexivity].
  unfold bind, gauge_replace, modify. cbn [snd fst].
  rewrite <- !app_assoc. cbn [app].
  rewrite !gauge_value_app.
  split; [reflexivity|]. split; [reflexivity|]. split; [reflexivity|].
  split; [reflexivity|].
  intros name H1 H2 H3 H4. rewrite gauge_value_app.
  rewrite !gauge_value_cons_ne by congruence. reflexivity.
Qed.

(** ** More on sequences of statements *)

Lemma execute_keeps_binding
    (self : SQLAlchemyEngineContextFactory) (conn : nat) (cursor : Cursor)
    (context : option ExecutionContext) (st : Statement) (w : World) :
  _execution_options (conns (snd (execute self conn cursor context st w))
                        conn)
  = _execution_options (conns w conn).
Proof.
  destruct (execute_block self conn cursor context st w)
    as [(_ & _ & H)|(parent & sp & key & value & ei & _ & _ & _ & H & _)];
    exact H.
Qed.

(** X17.  This layer does not change what a statement does: on a bound
    connection, a sequence of statements gives back one result per
    statement, in order.  A statement on which the driver raised gives
    back the exception SQLAlchemy raises for that error when no handler
    intervenes: this layer neither swallows it nor puts another in its
    place.  A statement on which the driver returned gives back its own
    text followed by the comment with the trace id of the root span and a
    span id, both written as their decimal numerals, and its own
    parameters. *)
Theorem run_returns_each_outcome
    (self : SQLAlchemyEngineContextFactory) (conn : nat) (cursor : Cursor)
    (context : option ExecutionContext) (sts : list Statement) (w : World)
    (context_name : PyVal) (root : Span.t) :
  _execution_options (conns w conn) !! "context_name" = Some context_name ->
  _execution_options (conns w conn) !! "server_span" = Some (VSpan root) ->
  exists rs,
    fst (run self conn cursor context sts w) = inr rs
    /\ Forall2
         (fun st r =>
            match stmt_outcome st with
            | Raises e raised => r = inl raised
            | Returns =>
                exists span_id trace_text span_text,
                  decimal_of (Span.trace_id root) trace_text
                  /\ decimal_of span_id span_text
                  /\ r = inr (stmt_text st +:+ " -- trace:" +:+ trace_text
                                           +:+ ",span:" +:+ span_text,
                              stmt_parameters st)
            end)
         sts rs.
Proof.
  revert w. induction sts as [|st sts IH]; intros w Hname Hspan; simpl.
  - exists []. split; [reflexivity | constructor].
  - unfold bind, attempt.
    pose proof (execute_keeps_binding self conn cursor context st w) as Hkeep.
    rewrite (execute_ok self conn cursor context st w _ _ Hname Hspan)
      in Hkeep |- *.
    cbn [snd] in Hkeep.
    match goal with
    | |- context [run self conn cursor context sts ?w1] =>
        destruct (IH w1) as (rs & Hrun & Hall);
        [now rewrite Hkeep | now rewrite Hkeep |];
        destruct (run self conn cursor context sts w1) as [r w2]
    end.
    cbn [fst] in Hrun. subst r. cbn [fst].
    eexists. split; [reflexivity|]. constructor; [|exact Hall].
    unfold outcome_result. destruct (stmt_outcome st) as [|e raised];
      [|reflexivity].
    eexists _, _, _. split; [apply format_d_decimal|].
    split; [apply format_d_decimal | reflexivity].
Qed.

(** X18.  The calls of a sequence of statements on a bound connection are
    known in full: for each statement in turn, and for nothing else, a
    child of the root span is made under the name of the context followed
    by [.execute], tagged with the text of that statement, started, and
    finished, with the error of that statement when it had one; every
    span belongs to the trace of the root. *)
Theorem run_events_in_full
    (self : SQLAlchemyEngineContextFactory) (conn : nat) (cursor : Cursor)
    (context : option ExecutionContext) (sts : list Statement) (w : World)
    (context_name : PyVal) (root : Span.t) :
  _execution_options (conns w conn) !! "context_name" = Some context_name ->
  _execution_options (conns w conn) !! "server_span" = Some (VSpan root) ->
  events (snd (run self conn cursor context sts w))
  = events w
    ++ statement_events (obj_repr w) (span_ids w) context_name root
         (next_obj w) sts.
Proof.
  revert w. induction sts as [|st sts IH]; intros w Hname Hspan; simpl.
  - now rewrite app_nil_r.
  - unfold bind, attempt.
    pose proof (execute_keeps_binding self conn cursor context st w) as Hkeep.
    rewrite (execute_ok self conn cursor context st w _ _ Hname Hspan)
      in Hkeep |- *.
    cbn [snd] in Hkeep.
    match goal with
    | |- context [run self conn cursor context sts ?w1] =>
        pose proof (IH w1) as IH1;
        destruct (run self conn cursor context sts w1) as [[e|rs] w2]
    end.
    all: specialize (IH1 ltac:(now rewrite Hkeep) ltac:(now rewrite Hkeep)).
    all: simpl in IH1 |- *; rewrite IH1, <- !app_assoc; reflexivity.
Qed.

(** X19.  On a connection that lacks [context_name] or [server_span], no
    statement of a sequence gets through: every attempt gives back the
    [KeyError] of the missing key, and the world after the sequence is the
    world before it. *)
Theorem run_on_unbound_connection
    (self : SQLAlchemyEngineContextFactory) (conn : nat) (cursor : Cursor)
    (context : option ExecutionContext) (sts : list Statement) (w : World) :
  _execution_options (conns w conn) !! "context_name" = None
  \/ _execution_options (conns w conn) !! "server_span" = None ->
  exists key,
    (key = "context_name" \/ key = "server_span")
    /\ run self conn cursor context sts w
       = (inr (map (fun _ => inl (KeyError key)) sts), w).
Proof.
  intros Hmissing.
  assert (Hexec : exists key,
            (key = "context_name" \/ key = "server_span")
            /\ forall st, execute self conn cursor context st w
                          = (inl (KeyError key), w)).
  { destruct (_execution_options (conns w conn) !! "context_name")
      as [context_name|] eqn:Hname.
    - destruct Hmissing as [Hmissing|Hmissing]; [discriminate|].
      exists "server_span". split; [now right|]. intros st.
      unfold execute, on_before_execute, bind, gets, getitem. simpl.
      now rewrite Hname, Hmissing.
    - exists "context_name". split; [now left|]. intros st.
      unfold execute, on_before_execute, bind, gets, getitem. simpl.
      now rewrite Hname. }
  destruct Hexec as (key & Hkey & Hexec). exists key. split; [exact Hkey|].
  induction sts as [|st sts IH]; simpl; [reflexivity|].
  unfold bind, attempt. rewrite Hexec, IH. reflexivity.
Qed.

(** *** The comment is one line *)

Lemma single_line_app (a b : string) :
  single_line (a +:+ b) = single_line a && single_line b.
Proof.
  induction a as [|c a IH]; [reflexivity|].
  rewrite append_cons. cbn [single_line]. rewrite IH.
  now rewrite !andb_assoc.
Qed.

Lemma single_line_uint (d : Decimal.uint) :
  single_line (NilEmpty.string_of_uint d) = true.
Proof.
  induction d as [|d IH|d IH|d IH|d IH|d IH|d IH|d IH|d IH|d IH|d IH];
    cbn [NilEmpty.string_of_uint single_line]; [reflexivity|..];
    rewrite IH; reflexivity.
Qed.

Lemma single_line_format_d (z : Z) : single_line (format_d z) = true.
Proof.
  unfold format_d.
  assert (Huint : forall d, single_line (NilZero.string_of_uint d) = true).
  { intros d. destruct d; try apply single_line_uint. reflexivity. }
  destruct (Z.to_int z) as [d|d]; cbn [NilZero.string_of_int].
  - apply Huint.
  - cbn [single_line]. rewrite Huint. reflexivity.
Qed.

(** X20.  What [on_before_execute] adds to a statement is one comment on
    one line: the text it returns is the statement, untouched, followed
    by [ -- ] and a remainder that has no line break in it, so the
    remainder cannot end the comment; and the parameters are returned
    untouched. *)
Theorem annotation_is_a_one_line_comment
    (self : SQLAlchemyEngineContextFactory) (conn : nat) (cursor : Cursor)
    (statement : string) (parameters : Parameters)
    (context : option ExecutionContext) (executemany : bool) (w w1 : World)
    (text : string) (sent : Parameters) :
  on_before_execute self conn cursor statement parameters context
    executemany w = (inr (text, sent), w1) ->
  sent = parameters
  /\ exists remainder,
       text = statement +:+ " -- " +:+ remainder
       /\ single_line remainder = true.
Proof.
  intros Hrun.
  destruct (on_before_execute_inv _ _ _ _ _ _ _ _ _ _ Hrun)
    as (cn & root & Hname & Hspan).
  rewrite (on_before_execute_ok _ _ _ _ _ _ _ _ _ _ Hname Hspan) in Hrun.
  injection Hrun as <- <- _. split; [reflexivity|].
  cbn [Span.trace_id Span.id].
  exists ("trace:" +:+ format_d (Span.trace_id root) +:+ ",span:"
            +:+ format_d (span_ids w (next_obj w))).
  split; [reflexivity|].
  rewrite !single_line_app, !single_line_format_d. reflexivity.
Qed.

(** ** The further theorems at the scenarios *)

(** X1 at a url with credentials, a store given and no secret named. *)
Lemma engine_from_config_without_secret_witness :
  ref_engine_from_config url_only_config (Some scenario_B_secrets)
    "database." ∅ []
  = (inr (mkEngine
            (URL.mk "db" (Some "user") (Some "pass") (Some "host") None
               (Some "db") [])
            ∅ (QueuePool (mkQueuePool 5 0 0 (-5))) ∅),
     [CallParse "database" url_only_config;
      CallMakeUrl "db://user:pass@host/db";
      CallCreateEngine
        (URL.mk "db" (Some "user") (Some "pass") (Some "host") None
           (Some "db") [])
        ∅]).
Proof.
  apply (engine_from_config_without_secret ref_parse ref_make_url
           ref_get_credentials ref_create_engine url_only_config
           (Some scenario_B_secrets) "database." ∅ []
           (mkOptions "db://user:pass@host/db" None None)
           (URL.mk "db" (Some "user") (Some "pass") (Some "host") None
              (Some "db") [])).
  - reflexivity.
  - vm_compute. reflexivity.
  - reflexivity.
  - reflexivity.
Defined.

(** X2 at a configured recycle time of 3600 and a caller who asks for
    60. *)
Lemma engine_from_config_pool_recycle_witness :
  exists r calls,
    ref_engine_from_config recycle_config None "database." recycle_kwargs []
    = (r, calls)
    /\ forall u kw,
         CallCreateEngine u kw ∈ calls ->
         kw !! "pool_recycle" = Some (VInt 60)
         /\ kw !! "echo" = Some (VInt 1).
Proof.
  destruct (engine_from_config_pool_recycle ref_parse ref_make_url
              (ref_get_credentials) ref_create_engine recycle_config None
              "database." recycle_kwargs []
              (mkOptions "db://host/db" None (Some 3600)))
    as (r & calls & Hrun & Hkw).
  - vm_compute. reflexivity.
  - exists r, calls. split; [exact Hrun|].
    intros u kw Hc. destruct (Hkw u kw Hc) as [Hother Hrecycle].
    split; [exact Hrecycle|]. rewrite Hother by discriminate. reflexivity.
Defined.

(** X3 at an empty configuration, at a url that is none, and at a store
    that lacks the secret. *)
Lemma engine_from_config_first_failure_witness :
  fst (ref_engine_from_config ∅ None "database." ∅ [])
  = inl (ConfigurationError "database.url" "no value specified")
  /\ snd (ref_engine_from_config bad_url_config None "database." ∅ [])
     = [CallParse "database" bad_url_config; CallMakeUrl "nonsense"]
  /\ snd (ref_engine_from_config scenario_B_config (Some other_secrets)
            "database." ∅ [])
     = [CallParse "database" scenario_B_config;
        CallMakeUrl "db://user:pass@host/db";
        CallGetCredentials "db/creds"].
Proof.
  split; [|split].
  - destruct (engine_from_config_first_failure ref_parse ref_make_url
                (ref_get_credentials) ref_create_engine ∅ None "database."
                ∅ [] eq_refl) as (Hparse & _ & _).
    unfold ref_engine_from_config.
    rewrite (Hparse (ConfigurationError "database.url" "no value specified"));
      [reflexivity | vm_compute; reflexivity].
  - destruct (engine_from_config_first_failure ref_parse ref_make_url
                (ref_get_credentials) ref_create_engine bad_url_config None
                "database." ∅ [] eq_refl) as (_ & Hurl & _).
    unfold ref_engine_from_config.
    rewrite (Hurl (mkOptions "nonsense" None None)
               (mkException "ArgumentError"
                  "Could not parse rfc1738 URL from string 'nonsense'"));
      [reflexivity | vm_compute; reflexivity | reflexivity].
  - destruct (engine_from_config_first_failure ref_parse ref_make_url
                ref_get_credentials ref_create_engine scenario_B_config
                (Some other_secrets) "database." ∅ [] eq_refl)
      as (_ & _ & Hsecret).
    unfold ref_engine_from_config.
    rewrite (Hsecret
               (mkOptions "db://user:pass@host/db" (Some "db/creds") None)
               (URL.mk "db" (Some "user") (Some "pass") (Some "host") None
                  (Some "db") [])
               other_secrets "db/creds"
               (mkException "SecretNotFoundError" "db/creds"));
      [reflexivity | vm_compute; reflexivity | reflexivity | reflexivity
      | discriminate | reflexivity | reflexivity].
Defined.

(** X4 at scenario B, through the session parser. *)
Lemma SQLAlchemySession_parse_builds_factory_witness :
  exists factory built,
    fst (SQLAlchemySession_parse ref_parse ref_make_url ref_get_credentials
           ref_create_engine scenario_B_session "database"
           scenario_B_config [])
    = inr factory
    /\ factory = new_factory built
    /\ URL.username (engine_url built) = Some "svc".
Proof.
  destruct (SQLAlchemySession_parse_builds_factory ref_parse ref_make_url
              ref_get_credentials ref_create_engine scenario_B_session
              "database" scenario_B_config [])
    as (r & rest & Hrun & Hfactory).
  rewrite Hrun. cbn [fst].
  assert (Hvalue :
    SQLAlchemySession_parse ref_parse ref_make_url ref_get_credentials
      ref_create_engine scenario_B_session "database" scenario_B_config []
    = (inr (new_factory
              (mkEngine
                 (URL.mk "db" (Some "svc") (Some "s3cr3t") (Some "host")
                    None (Some "db") [])
                 ∅ (QueuePool (mkQueuePool 5 0 0 (-5))) ∅)),
       [CallParse "database" scenario_B_config;
        CallMakeUrl "db://user:pass@host/db";
        CallGetCredentials "db/creds";
        CallCreateEngine
          (URL.mk "db" (Some "svc") (Some "s3cr3t") (Some "host") None
             (Some "db") [])
          ∅])).
  { vm_compute. reflexivity. }
  rewrite Hvalue in Hrun. injection Hrun as <- _.
  destruct (Hfactory _ eq_refl) as (middle & u & kw & built & _ & _ & Heq).
  eexists _, built. split; [reflexivity|]. split; [exact Heq|].
  apply (f_equal (fun f => URL.username (engine_url (engine f)))) in Heq.
  simpl in Heq. symmetry. exact Heq.
Defined.

(** X5 at an engine that carries an option of its own and an earlier
    binding. *)
Lemma make_object_for_context_binds_witness :
  let handle :=
    make_object_for_context (new_factory tuned_engine) "users_db"
      scenario_root in
  engine_options handle !! "context_name" = Some (VStr "users_db")
  /\ engine_options handle !! "isolation_level" = Some (VStr "AUTOCOMMIT")
  /\ pool handle = pool tuned_engine.
Proof.
  intros handle.
  destruct (make_object_for_context_binds (new_factory tuned_engine)
              "users_db" scenario_root)
    as (_ & _ & Hpool & Hname & _ & Hother).
  split; [exact Hname|]. split; [|exact Hpool].
  unfold handle. rewrite Hother by discriminate. reflexivity.
Defined.

(** X7 at a connection whose server span is [None]. *)
Lemma on_before_execute_server_span_not_a_span_witness :
  on_before_execute scenario_factory 0 0%nat "SELECT 1" None None false
    misbound_world
  = (inl (AttributeError "'NoneType' object has no attribute 'make_child'"),
     misbound_world).
Proof.
  apply (on_before_execute_server_span_not_a_span scenario_factory 0 0%nat
           "SELECT 1" None None false misbound_world (VStr "users_db")
           VNone).
  - reflexivity.
  - reflexivity.
  - discriminate.
Defined.

(** X8 at a connection on which nothing has run. *)
Lemma finish_hooks_without_slot_witness :
  on_after_execute scenario_factory 0 0%nat "SELECT 1" None None false
    scenario_D_world = (inl (KeyError "span"), scenario_D_world)
  /\ on_error scenario_factory (mkExceptionContext driver_error 0)
       scenario_D_world = (inl (KeyError "span"), scenario_D_world).
Proof.
  apply (finish_hooks_without_slot scenario_factory 0 0%nat "SELECT 1" None
           None false driver_error scenario_D_world).
  reflexivity.
Defined.

(** X9 at scenario D, after its statement. *)
Lemma finish_hooks_after_statement_is_over_witness :
  bound scenario_D_world 0
  /\ on_after_execute scenario_factory 0 0%nat "SELECT 1" None None false
       (snd (execute scenario_factory 0 0%nat None select_1
               scenario_D_world))
     = (inl (AttributeError "'NoneType' object has no attribute 'finish'"),
        snd (execute scenario_factory 0 0%nat None select_1
               scenario_D_world)).
Proof.
  assert (Hbound : bound scenario_D_world 0).
  { split; [exists (VStr "users_db") | exists scenario_root]; reflexivity. }
  split; [exact Hbound|].
  pose proof (finish_hooks_after_statement_is_over scenario_factory 0 0%nat
                None select_1 "SELECT 1" None false driver_error
                scenario_D_world Hbound) as H.
  cbv zeta in H. destruct H as [H _]. exact H.
Defined.

(** X10 at scenario D: the second connection is as it was. *)
Lemma hooks_write_only_their_slot_witness :
  conns (snd (on_before_execute scenario_factory 0 0%nat "SELECT 1" None
                None false two_connections_world)) 1
  = conns two_connections_world 1.
Proof.
  apply (hooks_write_only_their_slot scenario_factory 0 0%nat "SELECT 1"
           None None false driver_error two_connections_world).
  - left. reflexivity.
  - discriminate.
Defined.

(** X11 at scenario D. *)
Lemma overlapping_statements_witness :
  bound scenario_D_world 0
  /\ exists sp1 sp2,
       slot_span
         (snd (on_before_execute scenario_factory 0 0%nat "SELECT 1" None
                 None false scenario_D_world)) 0 = Some sp1
       /\ Span.obj sp1 <> Span.obj sp2.
Proof.
  assert (Hbound : bound scenario_D_world 0).
  { split; [exists (VStr "users_db") | exists scenario_root]; reflexivity. }
  split; [exact Hbound|].
  destruct (overlapping_statements_leak_the_first_span scenario_factory 0
              0%nat None select_1 select_1_failing scenario_D_world Hbound)
    as (sp1 & sp2 & delta & Hslot & _ & Hne & _).
  exists sp1, sp2. split; [exact Hslot | exact Hne].
Defined.

(** X13 at scenario D, run twice from the same world. *)
Lemma annotation_determines_ids_witness :
  exists sp sp',
    slot_span (after_before scenario_D_world 0
                 (Span.mk 1 7 (Some 7) 1001 "users_db.execute") "SELECT 1"
                 scenario_root) 0 = Some sp
    /\ slot_span (after_before scenario_D_world 0
                    (Span.mk 1 7 (Some 7) 1001 "users_db.execute")
                    "SELECT 1" scenario_root) 0 = Some sp'
    /\ Span.trace_id sp = Span.trace_id sp'
    /\ Span.id sp = Span.id sp'.
Proof.
  apply (annotation_determines_ids scenario_factory scenario_factory 0 0
           0%nat 0%nat "SELECT 1" None None None None false true
           scenario_D_world scenario_D_world _ _
           "SELECT 1 -- trace:7,span:1001" None None).
  - vm_compute. reflexivity.
  - vm_compute. reflexivity.
Defined.

(** X6 at scenario D, on the pooled connection a second time: the
    connection of scenario D has run one statement, is drawn again from
    the handle, and runs another, which is sent as
    [SELECT 1 -- trace:7,span:1002]. *)
Lemma statement_through_handle_witness :
  let w :=
    snd (execute scenario_factory 0 0%nat None select_1 scenario_D_world) in
  let w0 :=
    connect (make_object_for_context scenario_factory "users_db"
               scenario_root) 0 w in
  fst (execute scenario_factory 0 0%nat None select_1 w0)
  = inr ("SELECT 1 -- trace:7,span:1002", None)
  /\ info (conns (snd (execute scenario_factory 0 0%nat None select_1 w0)) 0)
     = <["span" := VNone]> (info (conns w 0)).
Proof.
  intros w w0.
  destruct (statement_through_handle scenario_factory scenario_factory
              "users_db" scenario_root 0 0%nat None select_1 w)
    as (trace_text & span_text & Htrace & Hid & Hrun & _ & Hinfo).
  assert (Hseven : trace_text = "7").
  { apply (decimal_of_unique 7 _ _ Htrace). reflexivity. }
  assert (Hnext : span_text = "1002").
  { apply (decimal_of_unique 1002 _ _ Hid). reflexivity. }
  subst trace_text span_text.
  split; [exact Hrun | exact Hinfo].
Defined.

(** X16 at a batch that holds a gauge of another name. *)
Lemma report_runtime_metrics_replaces_witness :
  let batch' :=
    snd (report_runtime_metrics scenario_factory
           [("requests", 5); ("pool.size", 99)]) in
  gauge_value "pool.size" batch' = Some 10
  /\ gauge_value "requests" batch' = Some 5.
Proof.
  intros batch'.
  pose proof (report_runtime_metrics_replaces scenario_factory
                [("requests", 5); ("pool.size", 99)]) as H.
  cbv zeta in H.
  change (pool (engine scenario_factory))
    with (QueuePool (mkQueuePool 10 7 3 0)) in H.
  destruct H as (Hsize & _ & _ & _ & Hother).
  split; [exact Hsize|].
  unfold batch'. rewrite Hother by discriminate. reflexivity.
Defined.

(** X17 at scenario D, with one statement that succeeds, which comes back
    as [SELECT 1 -- trace:7,span:1001], and one that fails with an error
    of the DBAPI, which comes back wrapped. *)
Lemma run_returns_each_outcome_witness :
  fst (run scenario_factory 0 0%nat None [select_1; select_1_failing]
         scenario_D_world)
  = inr [inr ("SELECT 1 -- trace:7,span:1001", None);
         inl wrapped_driver_error]
  /\ exists span_id span_text,
       decimal_of span_id span_text
       /\ fst (run scenario_factory 0 0%nat None [select_1; select_1_failing]
                 scenario_D_world)
          = inr [inr ("SELECT 1 -- trace:7,span:" +:+ span_text, None);
                 inl wrapped_driver_error].
Proof.
  destruct (run_returns_each_outcome scenario_factory 0 0%nat None
              [select_1; select_1_failing] scenario_D_world
              (VStr "users_db") scenario_root)
    as (rs & Hrun & Hall).
  - reflexivity.
  - reflexivity.
  - apply Forall2_cons_inv_l in Hall as (r1 & rs1 & H1 & Hall & ->).
    apply Forall2_cons_inv_l in Hall as (r2 & rs2 & H2 & Hall & ->).
    apply Forall2_nil_inv_l in Hall as ->.
    simpl in H1, H2.
    destruct H1 as (span_id & trace_text & span_text & Htrace & Hid & H1).
    assert (Hseven : trace_text = "7").
    { apply (decimal_of_unique 7 _ _ Htrace). reflexivity. }
    subst trace_text r1 r2.
    split.
    + vm_compute. reflexivity.
    + exists span_id, span_text. split; [exact Hid | exact Hrun].
Defined.

(** X18 at scenario D, with the same two statements. *)
Lemma run_events_in_full_witness :
  events (snd (run scenario_factory 0 0%nat None
                 [select_1; select_1_failing] scenario_D_world))
  = let sp1 := Span.mk 1 7 (Some 7) 1001 "users_db.execute" in
    let sp2 := Span.mk 2 7 (Some 7) 1002 "users_db.execute" in
    [EvMakeChild scenario_root sp1;
     EvSetTag sp1 "statement" (VStr "SELECT 1");
     EvStart sp1;
     EvFinish sp1 None;
     EvMakeChild scenario_root sp2;
     EvSetTag sp2 "statement" (VStr "SELECT 1");
     EvStart sp2;
     EvFinish sp2 (Some ("OperationalError", driver_error, None))].
Proof.
  rewrite (run_events_in_full scenario_factory 0 0%nat None
             [select_1; select_1_failing] scenario_D_world
             (VStr "users_db") scenario_root);
    reflexivity.
Defined.

(** X19 at a connection that was not drawn from a handle. *)
Lemma run_on_unbound_connection_witness :
  exists key,
    (key = "context_name" \/ key = "server_span")
    /\ run scenario_factory 0 0%nat None [select_1; select_1_failing]
         ref_world
       = (inr [inl (KeyError key); inl (KeyError key)], ref_world).
Proof.
  apply (run_on_unbound_connection scenario_factory 0 0%nat None
           [select_1; select_1_failing] ref_world).
  left. reflexivity.
Defined.

(** X20 at scenario D. *)
Lemma annotation_is_a_one_line_comment_witness :
  exists remainder,
    "SELECT 1 -- trace:7,span:1001" = "SELECT 1" +:+ " -- " +:+ remainder
    /\ single_line remainder = true.
Proof.
  apply (annotation_is_a_one_line_comment scenario_factory 0 0%nat
           "SELECT 1" None None false scenario_D_world
           (after_before scenario_D_world 0
              (Span.mk 1 7 (Some 7) 1001 "users_db.execute") "SELECT 1"
              scenario_root)
           "SELECT 1 -- trace:7,span:1001" None).
  vm_compute. reflexivity.
Defined.
